(** * Protocol header verifier (check_headers.py)

    A shallow embedding of the build-time script that checks the generated
    Wayland protocol headers shipped in [wlroots/include] against what
    [wayland-scanner] produces today, and of its command-line front end.

    Modelling conventions.
    - Text is [string], a sequence of characters from U+0000 to U+00FF; a
      header file is represented by the list of lines that [readlines()]
      returns for it, so that files which differ only in how their lines
      end are one value.
    - A [pathlib.Path] is its list of components plus a flag for a leading
      root.
    - The include directory is a finite map from file names to files: it
      is taken to exist and to hold regular files that can be read.  The
      temporary directories made by [tempfile.TemporaryDirectory] live in a
      second finite map indexed by the name [mkdtemp] chose.
    - Python exceptions are values of [exn]; effectful functions run in a
      state-and-exception monad over [World], which also records a trace
      of the externally visible actions (directory listings, file reads,
      subprocess runs, printed text). *)

From Stdlib Require Import ZArith Ascii String List.
From stdpp Require Import gmap strings list fin_maps.

Open Scope string_scope.

#[local] Set Warnings "-clear-no-such-hyp".

(** ** Strings *)

Module Str.

(** [s.rfind(c)]: index of the last occurrence of [c], [None] for -1. *)
Fixpoint rfind (c : ascii) (s : string) : option nat :=
  match s with
  | EmptyString => None
  | String a s' =>
      match rfind c s' with
      | Some i => Some (S i)
      | None => if Ascii.eqb a c then Some 0 else None
      end
  end.

(** [s[:n]] *)
Fixpoint take (n : nat) (s : string) : string :=
  match n, s with
  | S n', String a s' => String a (take n' s')
  | _, _ => EmptyString
  end.

(** [s.split(c)], as a list of the pieces between occurrences of [c]. *)
Fixpoint split (c : ascii) (s : string) : list string :=
  match s with
  | EmptyString => [EmptyString]
  | String a s' =>
      if Ascii.eqb a c then EmptyString :: split c s'
      else match split c s' with
           | piece :: rest => String a piece :: rest
           | [] => [String a EmptyString]
           end
  end.

(** [s.lstrip(chars)] for a predicate on characters. *)
Fixpoint lstrip (p : ascii -> bool) (s : string) : string :=
  match s with
  | EmptyString => EmptyString
  | String a s' => if p a then lstrip p s' else s
  end.

(** [s.rstrip(chars)] *)
Fixpoint rstrip (p : ascii -> bool) (s : string) : string :=
  match s with
  | EmptyString => EmptyString
  | String a s' =>
      match rstrip p s' with
      | EmptyString => if p a then EmptyString else String a EmptyString
      | r => String a r
      end
  end.

Definition strip (p : ascii -> bool) (s : string) : string :=
  rstrip p (lstrip p s).

Definition is_newline (a : ascii) : bool := Ascii.eqb a "010"%char.

(** The characters [str.strip()] removes when called without argument,
    those for which [str.isspace()] holds: TAB..CR, FS..US, space, U+0085
    (next line) and U+00A0 (no-break space). *)
Definition is_space (a : ascii) : bool :=
  let n := nat_of_ascii a in
  (Nat.leb 9 n && Nat.leb n 13) || (Nat.leb 28 n && Nat.leb n 32)
  || Nat.eqb n 133 || Nat.eqb n 160.

(** [s.strip("\n")] *)
Definition strip_newlines (s : string) : string := strip is_newline s.

(** [s.strip()] *)
Definition strip_space (s : string) : string := strip is_space s.

Definition starts_with_slash (s : string) : bool :=
  match s with
  | String a _ => Ascii.eqb a "/"%char
  | EmptyString => false
  end.

End Str.

(** ** Paths *)

Record Path := mkPath { absolute : bool; parts : list string }.

#[global] Instance Path_eq_dec : EqDecision Path.
Proof. solve_decision. Defined.

Definition is_component (s : string) : bool :=
  negb (String.eqb s "") && negb (String.eqb s ".").

(** [pathlib.Path(s)]: empty and [.] components are dropped. *)
Definition Path_of_string (s : string) : Path :=
  {| absolute := Str.starts_with_slash s;
     parts := List.filter is_component (Str.split "/"%char s) |}.

(** [p / s]: an absolute right operand replaces the left one. *)
Definition joinpath (p : Path) (s : string) : Path :=
  let q := Path_of_string s in
  if absolute q then q
  else {| absolute := absolute p; parts := (parts p ++ parts q)%list |}.

(** [p.name]: the final component, empty when there is none. *)
Definition name (p : Path) : string := List.last (parts p) "".

(** [p.stem]: the name without its last suffix.  A dot that is the first
    or the last character of the name does not start a suffix. *)
Definition stem (p : Path) : string :=
  let n := name p in
  match Str.rfind "."%char n with
  | Some i =>
      if Nat.ltb 0 i && Nat.ltb i (String.length n - 1) then Str.take i n else n
  | None => n
  end.

(** ** Configuration tables *)

Definition WAYLAND_PROCOTOLS : list string :=
  [ "stable/xdg-shell/xdg-shell.xml";
    "unstable/idle-inhibit/idle-inhibit-unstable-v1.xml";
    "unstable/pointer-constraints/pointer-constraints-unstable-v1.xml" ].

Definition WLROOTS_PROTOCOLS : list string :=
  [ "protocol/idle.xml";
    "protocol/wlr-output-power-management-unstable-v1.xml";
    "protocol/wlr-layer-shell-unstable-v1.xml" ].

Definition header_filename (xml_file : Path) : string :=
  stem xml_file +:+ "-protocol.h".

(** ** Exceptions *)

(** The texts of the [ValueError]s the script raises, with the values
    interpolated into each of them. *)
Inductive message :=
| UnexpectedProtocolFiles (unexpected_files extra_files : list string)
    (* "Unexpected protocol files: {..}, Extra files: {..}" *)
| MismatchLineCount (xml_name : string)
    (* "Mismatch line count in {protocol_xml.name}" *)
| MismatchInLine (xml_name : string) (i : nat)
    (* "Mismatch in {protocol_xml.name} in line {i}" *)
| WaylandDirDoesNotExist (wayland_dir : option Path)
    (* "Wayland protocols directory does not exist: {args.wayland_dir}" *)
| WlrootsDirDoesNotExist (wlroots_dir : Path)
    (* "Wlroots directory does not exist: {args.wlroots_dir}" *)
| ProtocolDoesNotExist (protocol : Path).
    (* "Protocol does not exist: {protocol}" *)

Inductive exn :=
| ValueError (msg : message)
| CalledProcessError (returncode : Z) (program : string)
| OSError (program : string)
    (* the program could not be started: FileNotFoundError when it is not
       installed, PermissionError when it may not be run *)
| UnicodeDecodeError                (* bytes that are not UTF-8 *)
| FileNotFoundError (file : string) (* a file to read that is not there *)
| SystemExit (code : Z).            (* argparse usage error *)

Inductive result (A : Type) :=
| Ok (a : A)
| Raise (e : exn).
Arguments Ok {A} a.
Arguments Raise {A} e.

(** ** Subprocesses *)

(** The bytes a program wrote to its standard output: held as the text
    they decode to (a text of characters up to U+00FF, as all text here),
    or marked as not being UTF-8. *)
Inductive bytes :=
| Utf8 (text : string)
| NotUtf8.

(** [b.decode()] *)
Definition decode (b : bytes) : result string :=
  match b with
  | Utf8 text => Ok text
  | NotUtf8 => Raise UnicodeDecodeError
  end.

(** What running an external program came to: it could not be started, or
    it ran to completion with a return code and some standard output. *)
Inductive completed :=
| NotStarted
| Exited (returncode : Z) (output : bytes).

(** [subprocess.check_output(args)] on a run that ended as [c]. *)
Definition check_output (program : string) (c : completed) : result bytes :=
  match c with
  | NotStarted => Raise (OSError program)
  | Exited returncode output =>
      if Z.eqb returncode 0 then Ok output
      else Raise (CalledProcessError returncode program)
  end.

(** What a run of [wayland-scanner server-header input output] came to.
    A successful run has written the lines of the header to its output
    file; a failing run is taken to leave no output file behind. *)
Inductive scanned :=
| ScannerNotStarted
| ScannerFailed (returncode : Z)
| ScannerWrote (header : list string).

(** ** The world: include directory, temporary directories, trace *)

Inductive location :=
| Include                (* INCLUDE_PATH *)
| Tmp (d : nat).         (* a directory made by TemporaryDirectory *)

Inductive event :=
| Iterdir                                            (* INCLUDE_PATH.iterdir() *)
| Open (dir : location) (file : string)              (* open a file for reading *)
| Mkdtemp (d : nat)                                  (* entering TemporaryDirectory *)
| Rmtree (d : nat)                                   (* leaving TemporaryDirectory *)
| RunScanner (input_xml : Path) (dir : location) (file : string)
| Print (text : string).

Record World := mkWorld {
  include_dir : gmap string (list string);
  tmp_dirs : gmap nat (gmap string (list string));
  trace : list event
}.

(** ** The state-and-exception monad *)

Definition M (A : Type) : Type := World -> result A * World.

Definition ret {A} (a : A) : M A := fun w => (Ok a, w).

Definition raise {A} (e : exn) : M A := fun w => (Raise e, w).

Definition bind {A B} (m : M A) (k : A -> M B) : M B :=
  fun w =>
    match m w with
    | (Ok a, w') => k a w'
    | (Raise e, w') => (Raise e, w')
    end.

Declare Scope py_scope.
Delimit Scope py_scope with py.
Notation "x <- m ;; k" := (bind m (fun x => k))
  (at level 100, m at next level, right associativity) : py_scope.
Notation "m ;;; k" := (bind m (fun _ => k))
  (at level 100, right associativity) : py_scope.
Open Scope py_scope.

Definition emit (e : event) : M unit :=
  fun w => (Ok tt, {| include_dir := include_dir w;
                      tmp_dirs := tmp_dirs w;
                      trace := (trace w ++ [e])%list |}).

(** [print(label, text)] *)
Definition print (label text : string) : M unit :=
  emit (Print (label +:+ " " +:+ text)).

(** [{path.name for path in INCLUDE_PATH.iterdir()}] *)
Definition iterdir_names : M (gset string) :=
  emit Iterdir ;;; fun w => (Ok (dom (include_dir w)), w).

Definition lookup_file (dir : location) (file : string) (w : World)
  : option (list string) :=
  match dir with
  | Include => include_dir w !! file
  | Tmp d => tmp_dirs w !! d ≫= fun files => files !! file
  end.

Definition dir_exists (dir : location) (w : World) : bool :=
  match dir with
  | Include => true
  | Tmp d => bool_decide (is_Some (tmp_dirs w !! d))
  end.

Definition write_file (dir : location) (file : string) (lines : list string)
  : M unit :=
  fun w =>
    (Ok tt,
     match dir with
     | Include => {| include_dir := <[file := lines]> (include_dir w);
                     tmp_dirs := tmp_dirs w;
                     trace := trace w |}
     | Tmp d => {| include_dir := include_dir w;
                   tmp_dirs := alter (insert file lines) d (tmp_dirs w);
                   trace := trace w |}
     end).

(** [with path.open() as f: f.readlines()] *)
Definition readlines (dir : location) (file : string) : M (list string) :=
  emit (Open dir file) ;;;
  fun w =>
    match lookup_file dir file w with
    | Some lines => (Ok lines, w)
    | None => (Raise (FileNotFoundError file), w)
    end.

(** [with tempfile.TemporaryDirectory() as output_dir: body]: a fresh
    directory is made, and it is removed when the block is left, whether
    [body] returned or raised. *)
Definition TemporaryDirectory {A} (body : location -> M A) : M A :=
  fun w =>
    let d := fresh (dom (tmp_dirs w)) in
    let entered := {| include_dir := include_dir w;
                      tmp_dirs := <[d := ∅]> (tmp_dirs w);
                      trace := (trace w ++ [Mkdtemp d])%list |} in
    let '(r, w') := body (Tmp d) entered in
    (r, {| include_dir := include_dir w';
           tmp_dirs := delete d (tmp_dirs w');
           trace := (trace w' ++ [Rmtree d])%list |}).

(** ** The verifier *)

(** [enumerate(zip(generated_header, protocol_header))], searched for the
    first pair of unequal lines, counting from [i]. *)
Fixpoint first_mismatch (i : nat) (generated_header protocol_header : list string)
  : option (nat * string * string) :=
  match generated_header, protocol_header with
  | generated_line :: generated_rest, line :: rest =>
      if decide (generated_line ≠ line) then Some (i, generated_line, line)
      else first_mismatch (S i) generated_rest rest
  | _, _ => None
  end.

Section Verifier.

(** The header generator: what a run of [wayland-scanner] on a protocol
    document comes to.  It is a function of the document alone. *)
Variable wayland_scanner : Path -> scanned.

Definition generate_protocol_header (input_xml : Path) (output_dir : location)
  : M (location * string) :=
  let output_path := (output_dir, header_filename input_xml) in
  emit (RunScanner input_xml output_dir (header_filename input_xml)) ;;;
  fun w =>
    match wayland_scanner input_xml with
    | ScannerNotStarted => (Raise (OSError "wayland-scanner"), w)
    | ScannerFailed returncode =>
        (Raise (CalledProcessError returncode "wayland-scanner"), w)
    | ScannerWrote header =>
        if dir_exists output_dir w then
          (write_file output_dir (header_filename input_xml) header ;;;
           ret output_path) w
        else (Raise (CalledProcessError 1 "wayland-scanner"), w)
    end.

(** The comparison of the two headers of one document (lines 73 to 82). *)
Definition compare_headers (protocol_xml : Path)
    (protocol_header generated_header : list string) : M unit :=
  if decide (length protocol_header ≠ length generated_header) then
    raise (ValueError (MismatchLineCount (name protocol_xml)))
  else
    match first_mismatch 0 generated_header protocol_header with
    | Some (i, generated_line, line) =>
        print "Expected:" (Str.strip_newlines generated_line) ;;;
        print "Got:" (Str.strip_newlines line) ;;;
        raise (ValueError (MismatchInLine (name protocol_xml) i))
    | None => ret tt
    end.

(** One turn of the loop over the documents (lines 62 to 82). *)
Definition check_protocol (protocol_xml : Path) : M unit :=
  protocol_header <- readlines Include (header_filename protocol_xml) ;;
  generated_header <-
    TemporaryDirectory (fun output_dir =>
      generated_file <- generate_protocol_header protocol_xml output_dir ;;
      readlines (fst generated_file) (snd generated_file)) ;;
  compare_headers protocol_xml protocol_header generated_header.

Fixpoint check_protocols (protocols : list Path) : M unit :=
  match protocols with
  | [] => ret tt
  | protocol_xml :: rest =>
      check_protocol protocol_xml ;;; check_protocols rest
  end.

Definition expected_files (protocols : list Path) : gset string :=
  list_to_set (List.map header_filename protocols).

Definition check (protocols : list Path) : M unit :=
  let expected_protocol_files := expected_files protocols in
  protocol_files <- iterdir_names ;;
  if decide (expected_protocol_files ≠ protocol_files) then
    let unexpected_files := elements (expected_protocol_files ∖ protocol_files) in
    let extra_files := elements (protocol_files ∖ expected_protocol_files) in
    raise (ValueError (UnexpectedProtocolFiles unexpected_files extra_files))
  else check_protocols protocols.

Fixpoint generate (protocols : list Path) : M unit :=
  match protocols with
  | [] => ret tt
  | protocol_xml :: rest =>
      generate_protocol_header protocol_xml Include ;;; generate rest
  end.

(** *** What one turn of the loop comes to

    The result of [check_protocol] and the events it adds to the trace,
    as functions of the include directory [files] and of the name [d]
    that the temporary directory gets. *)

Definition headers_outcome (protocol_xml : Path)
    (protocol_header generated_header : list string) : result unit :=
  if decide (length protocol_header ≠ length generated_header) then
    Raise (ValueError (MismatchLineCount (name protocol_xml)))
  else
    match first_mismatch 0 generated_header protocol_header with
    | Some (i, _, _) => Raise (ValueError (MismatchInLine (name protocol_xml) i))
    | None => Ok tt
    end.

Definition headers_events (protocol_header generated_header : list string)
  : list event :=
  if decide (length protocol_header ≠ length generated_header) then []
  else
    match first_mismatch 0 generated_header protocol_header with
    | Some (_, generated_line, line) =>
        [ Print ("Expected:" +:+ " " +:+ Str.strip_newlines generated_line);
          Print ("Got:" +:+ " " +:+ Str.strip_newlines line) ]
    | None => []
    end.

Definition protocol_outcome (files : gmap string (list string))
    (protocol_xml : Path) : result unit :=
  match files !! header_filename protocol_xml with
  | None => Raise (FileNotFoundError (header_filename protocol_xml))
  | Some protocol_header =>
      match wayland_scanner protocol_xml with
      | ScannerNotStarted => Raise (OSError "wayland-scanner")
      | ScannerFailed returncode =>
          Raise (CalledProcessError returncode "wayland-scanner")
      | ScannerWrote generated_header =>
          headers_outcome protocol_xml protocol_header generated_header
      end
  end.

Definition protocol_events (files : gmap string (list string)) (d : nat)
    (protocol_xml : Path) : list event :=
  let file := header_filename protocol_xml in
  Open Include file ::
  match files !! file with
  | None => []
  | Some protocol_header =>
      Mkdtemp d :: RunScanner protocol_xml (Tmp d) file ::
      match wayland_scanner protocol_xml with
      | ScannerWrote generated_header =>
          Open (Tmp d) file :: Rmtree d ::
          headers_events protocol_header generated_header
      | _ => [Rmtree d]
      end
  end.

(** The same for the whole loop, which stops at the first document whose
    turn raises. *)
Fixpoint protocols_outcome (files : gmap string (list string))
    (protocols : list Path) : result unit :=
  match protocols with
  | [] => Ok tt
  | protocol_xml :: rest =>
      match protocol_outcome files protocol_xml with
      | Ok _ => protocols_outcome files rest
      | Raise e => Raise e
      end
  end.

Fixpoint protocols_events (files : gmap string (list string)) (d : nat)
    (protocols : list Path) : list event :=
  match protocols with
  | [] => []
  | protocol_xml :: rest =>
      (protocol_events files d protocol_xml ++
       match protocol_outcome files protocol_xml with
       | Ok _ => protocols_events files d rest
       | Raise _ => []
       end)%list
  end.

(** The events [check] adds to the trace. *)
Definition check_events (files : gmap string (list string)) (d : nat)
    (protocols : list Path) : list event :=
  Iterdir ::
  if decide (expected_files protocols ≠ dom files) then []
  else protocols_events files d protocols.

(** The scanner succeeds on every document of the list. *)
Definition scanner_succeeds (protocols : list Path) : Prop :=
  forall p, p ∈ protocols ->
    exists header, wayland_scanner p = ScannerWrote header.

(** The include directory after [generate], for as long as the scanner
    succeeds. *)
Fixpoint generated_files (files : gmap string (list string))
    (protocols : list Path) : gmap string (list string) :=
  match protocols with
  | [] => files
  | protocol_xml :: rest =>
      match wayland_scanner protocol_xml with
      | ScannerWrote header =>
          generated_files (<[header_filename protocol_xml := header]> files) rest
      | _ => files
      end
  end.

End Verifier.

(** The world [w] with the events [evs] added to its trace. *)
Definition traced (w : World) (evs : list event) : World :=
  {| include_dir := include_dir w;
     tmp_dirs := tmp_dirs w;
     trace := (trace w ++ evs)%list |}.

(** The documents that [wayland-scanner] was run on, in order. *)
Fixpoint scanner_runs (evs : list event) : list Path :=
  match evs with
  | [] => []
  | RunScanner input_xml _ _ :: rest => input_xml :: scanner_runs rest
  | _ :: rest => scanner_runs rest
  end.

(** The lines printed, in order. *)
Fixpoint printed (evs : list event) : list string :=
  match evs with
  | [] => []
  | Print text :: rest => text :: printed rest
  | _ :: rest => printed rest
  end.

(** ** The command line *)

(** The options found on the command line by [argparse]. *)
Record CommandLine := mkCommandLine {
  opt_wayland_dir : option string;     (* --wayland-dir PATH *)
  opt_wlroots_dir : option string;     (* --wlroots-dir PATH *)
  opt_generate : bool                  (* --generate *)
}.

Section CommandLineFrontEnd.

(** What a run of [pkgconf --variable=pkgdatadir wayland-protocols] comes
    to, and which paths exist on disk. *)
Variable pkgconf : completed.
Variable path_exists : Path -> bool.

Definition get_wayland_protocols_dir : result (option Path) :=
  match check_output "pkgconf" pkgconf with
  | Raise (CalledProcessError _ _) => Ok None
  | Raise e => Raise e
  | Ok raw =>
      match decode raw with
      | Raise e => Raise e
      | Ok text =>
          let output := Str.strip_space text in
          if negb (String.eqb output "") then Ok (Some (Path_of_string output))
          else Ok None
      end
  end.

(** The first document of [protocols] that is not on disk. *)
Fixpoint first_missing (protocols : list Path) : option Path :=
  match protocols with
  | [] => None
  | protocol :: rest =>
      if negb (path_exists protocol) then Some protocol
      else first_missing rest
  end.

Definition parse_args (argv : CommandLine) : result (list Path * bool) :=
  (* line 93: the default is computed while the parser is built *)
  match get_wayland_protocols_dir with
  | Raise e => Raise e
  | Ok default =>
      (* line 97: --wlroots-dir is required *)
      match opt_wlroots_dir argv with
      | None => Raise (SystemExit 2)
      | Some wlroots =>
          let wayland_dir :=
            match opt_wayland_dir argv with
            | Some s => Some (Path_of_string s)
            | None => default
            end in
          let wlroots_dir := Path_of_string wlroots in
          match wayland_dir with
          | None => Raise (ValueError (WaylandDirDoesNotExist None))
          | Some wayland_dir =>
              if negb (path_exists wayland_dir) then
                Raise (ValueError (WaylandDirDoesNotExist (Some wayland_dir)))
              else if negb (path_exists wlroots_dir) then
                Raise (ValueError (WlrootsDirDoesNotExist wlroots_dir))
              else
                let protocols :=
                  (List.map (joinpath wayland_dir) WAYLAND_PROCOTOLS
                   ++ List.map (joinpath wlroots_dir) WLROOTS_PROTOCOLS)%list in
                match first_missing protocols with
                | Some protocol =>
                    Raise (ValueError (ProtocolDoesNotExist protocol))
                | None => Ok (protocols, opt_generate argv)
                end
          end
      end
  end.

(** [args.wayland_dir]: the option when given, else the default. *)
Definition wayland_dir_of (argv : CommandLine) : option Path :=
  match opt_wayland_dir argv with
  | Some s => Some (Path_of_string s)
  | None =>
      match get_wayland_protocols_dir with
      | Ok default => default
      | Raise _ => None
      end
  end.

(** The documents of the configuration below the two directories. *)
Definition resolved (wayland_dir wlroots_dir : Path) : list Path :=
  (List.map (joinpath wayland_dir) WAYLAND_PROCOTOLS
   ++ List.map (joinpath wlroots_dir) WLROOTS_PROTOCOLS)%list.

End CommandLineFrontEnd.

(** The script's entry point: resolve the documents, then regenerate or
    check. *)
Definition main (wayland_scanner : Path -> scanned) (pkgconf : completed)
    (path_exists : Path -> bool) (argv : CommandLine) : M unit :=
  match parse_args pkgconf path_exists argv with
  | Raise e => raise e
  | Ok (protocols, generate_headers) =>
      if generate_headers then generate wayland_scanner protocols
      else check wayland_scanner protocols
  end.

(** ** The seat wrapper (wlroots/types/seat.py)

    The class [Seat] owns a [struct wlr_seat] of the native library.  The
    library is represented by the set of seats it has allocated and not
    yet destroyed, and by the list of the calls made into it.  Pointers
    are numbers; [wlr_seat_create] is taken to succeed and to return a
    pointer that is not in use. *)

Module Seat.

Inductive call :=
| wlr_seat_create (display : nat) (name : string) (ptr : nat)
| wlr_seat_destroy (ptr : nat)
| wlr_seat_set_capabilities (ptr : nat) (capabilities : N).

Record Native := mkNative {
  live : gset nat;
  calls : list call
}.

(** The object: [self._ptr], [None] once the seat has been destroyed, and
    the address that [self.request_set_cursor_event] was made from. *)
Record t := mkSeat {
  _ptr : option nat;
  request_set_cursor_event : nat
}.

(** What a statement can raise: the foreign-function layer refusing
    [None] where a pointer is due, or an exception of the caller's own. *)
Inductive error :=
| TypeError
| UserError (what : string).

(** [Seat(display, name)] *)
Definition __init__ (display : nat) (name : string) (n : Native)
  : t * Native :=
  let ptr := fresh (live n) in
  ({| _ptr := Some ptr; request_set_cursor_event := ptr |},
   {| live := {[ptr]} ∪ live n;
      calls := (calls n ++ [wlr_seat_create display name ptr])%list |}).

(** [seat.destroy()]: [ffi.release] runs the destructor registered with
    [ffi.gc], here [wlr_seat_destroy]. *)
Definition destroy (self : t) (n : Native) : t * Native :=
  match _ptr self with
  | Some ptr =>
      ({| _ptr := None;
          request_set_cursor_event := request_set_cursor_event self |},
       {| live := live n ∖ {[ptr]};
          calls := (calls n ++ [wlr_seat_destroy ptr])%list |})
  | None => (self, n)
  end.

(** [seat.set_capabilities(capabilities)] *)
Definition set_capabilities (self : t) (capabilities : N) (n : Native)
  : option error * Native :=
  match _ptr self with
  | Some ptr =>
      (None,
       {| live := live n;
          calls := (calls n ++ [wlr_seat_set_capabilities ptr capabilities])%list |})
  | None => (Some TypeError, n)
  end.

Definition __enter__ (self : t) : t := self.

(** [seat.__exit__(exc_type, exc_value, exc_tb)]: returns [None], so an
    exception of the block is raised again. *)
Definition __exit__ (self : t) (n : Native) : t * Native := destroy self n.

(** The statements of a block that uses a seat. *)
Inductive stmt :=
| Destroy
| SetCapabilities (capabilities : N)
| RaiseError (what : string).

(** Running the statements in order, up to the first that raises. *)
Fixpoint run (body : list stmt) (self : t) (n : Native)
  : option error * t * Native :=
  match body with
  | [] => (None, self, n)
  | Destroy :: rest =>
      let '(self', n') := destroy self n in run rest self' n'
  | SetCapabilities capabilities :: rest =>
      match set_capabilities self capabilities n with
      | (None, n') => run rest self n'
      | (Some e, n') => (Some e, self, n')
      end
  | RaiseError what :: _ => (Some (UserError what), self, n)
  end.

(** [with Seat(display, name) as seat: body] *)
Definition with_Seat (display : nat) (name : string) (body : list stmt)
    (n : Native) : option error * t * Native :=
  let '(self, n1) := __init__ display name n in
  let '(raised, self', n2) := run body (__enter__ self) n1 in
  let '(self'', n3) := __exit__ self' n2 in
  (raised, self'', n3).

End Seat.

(** ** Sample data

    Three protocol documents, a scanner that knows them, and a few states
    of the include directory, for evaluating the script on. *)

Module Sample.

Definition A : Path := Path_of_string "protocol/A.xml".
Definition B : Path := Path_of_string "protocol/B.xml".
Definition C : Path := Path_of_string "protocol/C.xml".

Definition A_header : list string :=
  [ "/* Generated by wayland-scanner */
"; "#ifndef A_SERVER_PROTOCOL_H
"; "#endif
" ].

Definition B_header : list string :=
  [ "/* Generated by wayland-scanner */
"; "#ifndef B_SERVER_PROTOCOL_H
"; "#endif
" ].

(** An older header for [B], with as many lines. *)
Definition B_stale : list string :=
  [ "/* Generated by wayland-scanner */
"; "#ifndef B_PROTOCOL_H
"; "#endif
" ].

(** An older header for [B], one line shorter. *)
Definition B_short : list string :=
  [ "/* Generated by wayland-scanner */
"; "#ifndef B_SERVER_PROTOCOL_H
" ].

Definition C_header : list string :=
  [ "/* Generated by wayland-scanner */
" ].

Definition scanner (input_xml : Path) : scanned :=
  if decide (input_xml = A) then ScannerWrote A_header
  else if decide (input_xml = B) then ScannerWrote B_header
  else if decide (input_xml = C) then ScannerWrote C_header
  else ScannerFailed 1.

Definition world (files : list (string * list string)) : World :=
  {| include_dir := list_to_map files; tmp_dirs := ∅; trace := [] |}.

(** The headers of the three documents are checked in and current. *)
Definition consistent : World :=
  world [("A-protocol.h", A_header); ("B-protocol.h", B_header);
         ("C-protocol.h", C_header)].

(** The header for [B] differs in its second line, and the one for [C] is
    empty. *)
Definition stale_line : World :=
  world [("A-protocol.h", A_header); ("B-protocol.h", B_stale);
         ("C-protocol.h", [])].

(** The header for [B] lacks its last line. *)
Definition short_header : World :=
  world [("A-protocol.h", A_header); ("B-protocol.h", B_short);
         ("C-protocol.h", C_header)].

(** Only headers for [A] and [B] are checked in. *)
Definition headers_A_B : World :=
  world [("A-protocol.h", A_header); ("B-protocol.h", B_header)].

(** A checked-in header of ten lines, and a scanner that writes eleven. *)
Definition ten_lines : World :=
  world [("A-protocol.h", replicate 10 "/* ... */
")].

Definition scanner_eleven (input_xml : Path) : scanned :=
  ScannerWrote (replicate 11 "/* ... */
").

(** A scanner whose output names the place of the document. *)
Definition scanner_by_path (input_xml : Path) : scanned :=
  ScannerWrote (parts input_xml).

(** Two documents of the same name in two directories. *)
Definition A_wayland : Path := Path_of_string "wayland/A.xml".
Definition A_wlroots : Path := Path_of_string "wlroots/A.xml".

(** A header for [B] is left over from an earlier configuration. *)
Definition leftover : World :=
  world [("A-protocol.h", A_header); ("B-protocol.h", B_header)].

(** A file system on which the directories and documents of the
    configuration exist below [/usr/share/wayland-protocols] and
    [/src/wlroots]. *)
Definition on_disk : list Path :=
  [ Path_of_string "/usr/share/wayland-protocols";
    Path_of_string "/src/wlroots" ] ++
  List.map (joinpath (Path_of_string "/usr/share/wayland-protocols"))
    WAYLAND_PROCOTOLS ++
  List.map (joinpath (Path_of_string "/src/wlroots")) WLROOTS_PROTOCOLS.

Definition path_exists (p : Path) : bool := bool_decide (p ∈ on_disk).

Definition argv : CommandLine :=
  {| opt_wayland_dir := None;
     opt_wlroots_dir := Some "/src/wlroots";
     opt_generate := false |}.

Definition pkgconf : completed :=
  Exited 0 (Utf8 "/usr/share/wayland-protocols
").

End Sample.

(** * Properties *)

(** ** Monad and world bookkeeping *)

Lemma traced_nil (w : World) : traced w [] = w.
Proof. destruct w; unfold traced; simpl. by rewrite app_nil_r. Qed.

Lemma traced_traced (w : World) (evs evs' : list event) :
  traced (traced w evs) evs' = traced w (evs ++ evs').
Proof. unfold traced; simpl. by rewrite <- app_assoc. Qed.

Lemma fresh_tmp_dir (w : World) :
  tmp_dirs w !! fresh (dom (tmp_dirs w)) = None.
Proof. apply not_elem_of_dom, is_fresh. Qed.

Lemma scanner_runs_app (evs evs' : list event) :
  scanner_runs (evs ++ evs') = (scanner_runs evs ++ scanner_runs evs')%list.
Proof.
  induction evs as [|[] evs IH]; simpl; try done. by rewrite IH.
Qed.

Lemma printed_app (evs evs' : list event) :
  printed (evs ++ evs') = (printed evs ++ printed evs')%list.
Proof.
  induction evs as [|[] evs IH]; simpl; try done. by rewrite IH.
Qed.

(** ** The line-by-line comparison *)

(** [first_mismatch] finds the least index at which the two headers differ,
    and finds nothing exactly when one header is a prefix of the other. *)
Lemma first_mismatch_Some (i k : nat) (g h : list string) (gl l : string) :
  first_mismatch i g h = Some (k, gl, l) ->
  exists j, k = i + j /\ g !! j = Some gl /\ h !! j = Some l /\ gl <> l /\
            forall j', j' < j -> g !! j' = h !! j'.
Proof.
  revert i h. induction g as [|a g IH]; intros i [|b h] Hm; simpl in Hm;
    try done.
  case_decide as Hab.
  - inversion Hm; subst. exists 0. repeat split; try done; lia.
  - apply IH in Hm as (j & -> & Hg & Hh & Hne & Hbefore).
    exists (S j). repeat split; try done; try lia.
    intros [|j'] Hj'; simpl.
    + f_equal. by destruct (decide (a = b)).
    + apply Hbefore. lia.
Qed.

Lemma first_mismatch_None (i : nat) (g h : list string) :
  length h = length g ->
  first_mismatch i g h = None -> h = g.
Proof.
  revert i h. induction g as [|a g IH]; intros i [|b h] Hlen Hm;
    simpl in *; try done.
  case_decide as Hab; [done|].
  f_equal.
  - by destruct (decide (a = b)).
  - eapply IH; [lia|done].
Qed.

Lemma first_mismatch_refl (i : nat) (g : list string) :
  first_mismatch i g g = None.
Proof.
  revert i. induction g as [|a g IH]; intros i; simpl; [done|].
  case_decide; [done|]. apply IH.
Qed.

Section VerifierFacts.

Variable wayland_scanner : Path -> scanned.

Lemma compare_headers_spec (protocol_xml : Path)
    (protocol_header generated_header : list string) (w : World) :
  compare_headers protocol_xml protocol_header generated_header w =
    (headers_outcome protocol_xml protocol_header generated_header,
     traced w (headers_events protocol_header generated_header)).
Proof.
  unfold compare_headers, headers_outcome, headers_events.
  case_decide; [by rewrite traced_nil|].
  destruct (first_mismatch 0 generated_header protocol_header)
    as [[[i generated_line] line]|]; [|by rewrite traced_nil].
  unfold print, bind, emit, raise, traced; simpl.
  by rewrite <- app_assoc.
Qed.

(** One turn of the loop changes nothing but the trace. *)
Lemma check_protocol_spec (protocol_xml : Path) (w : World) :
  check_protocol wayland_scanner protocol_xml w =
    (protocol_outcome wayland_scanner (include_dir w) protocol_xml,
     traced w (protocol_events wayland_scanner (include_dir w)
                 (fresh (dom (tmp_dirs w))) protocol_xml)).
Proof.
  pose proof (fresh_tmp_dir w) as Hfresh.
  destruct w as [files tmps tr]; simpl in *.
  unfold check_protocol, protocol_outcome, protocol_events, readlines,
    bind, emit, traced; simpl.
  destruct (files !! header_filename protocol_xml) as [h|] eqn:Hh; simpl;
    [|done].
  unfold TemporaryDirectory, generate_protocol_header, bind, emit; simpl.
  destruct (wayland_scanner protocol_xml) as [| rc | g] eqn:Hs; simpl.
  - rewrite delete_insert_eq, (delete_id _ _ Hfresh).
    by rewrite <- !app_assoc.
  - rewrite delete_insert_eq, (delete_id _ _ Hfresh).
    by rewrite <- !app_assoc.
  - rewrite lookup_insert_eq.
    rewrite bool_decide_eq_true_2 by eauto.
    unfold ret, lookup_file; simpl.
    rewrite lookup_alter_eq, lookup_insert_eq; simpl.
    rewrite lookup_insert_eq; simpl.
    rewrite delete_alter_eq, delete_insert_eq, (delete_id _ _ Hfresh).
    rewrite compare_headers_spec. unfold traced; simpl.
    by rewrite <- !app_assoc.
Qed.

Lemma check_protocols_spec (protocols : list Path) (w : World) :
  check_protocols wayland_scanner protocols w =
    (protocols_outcome wayland_scanner (include_dir w) protocols,
     traced w (protocols_events wayland_scanner (include_dir w)
                 (fresh (dom (tmp_dirs w))) protocols)).
Proof.
  revert w. induction protocols as [|protocol_xml rest IH]; intros w; simpl.
  - by rewrite traced_nil.
  - unfold bind. rewrite check_protocol_spec.
    destruct (protocol_outcome wayland_scanner (include_dir w) protocol_xml)
      as [[]|e].
    + rewrite IH. simpl. by rewrite traced_traced.
    + by rewrite app_nil_r.
Qed.

Lemma check_spec (protocols : list Path) (w : World) :
  check wayland_scanner protocols w =
    (if decide (expected_files protocols ≠ dom (include_dir w)) then
       Raise (ValueError (UnexpectedProtocolFiles
                (elements (expected_files protocols ∖ dom (include_dir w)))
                (elements (dom (include_dir w) ∖ expected_files protocols))))
     else protocols_outcome wayland_scanner (include_dir w) protocols,
     traced w (check_events wayland_scanner (include_dir w)
             (fresh (dom (tmp_dirs w)))
                 protocols)).
Proof.
  unfold check, check_events, iterdir_names, bind, emit, raise; simpl.
  case_decide; [done|].
  rewrite check_protocols_spec; simpl.
  unfold traced; simpl. by rewrite <- app_assoc.
Qed.

Lemma scanner_runs_headers_events (protocol_header generated_header : list string) :
  scanner_runs (headers_events protocol_header generated_header) = [].
Proof.
  unfold headers_events. case_decide; [done|].
  by destruct (first_mismatch 0 generated_header protocol_header)
    as [[[i generated_line] line]|].
Qed.

(** *** The loop over a list of documents split in two *)

Lemma protocols_outcome_app (files : gmap string (list string))
    (before after : list Path) :
  protocols_outcome wayland_scanner files (before ++ after) =
    match protocols_outcome wayland_scanner files before with
    | Ok _ => protocols_outcome wayland_scanner files after
    | Raise e => Raise e
    end.
Proof.
  induction before as [|p before IH]; simpl; [done|].
  by destruct (protocol_outcome wayland_scanner files p).
Qed.

Lemma protocols_events_app (files : gmap string (list string)) (d : nat)
    (before after : list Path) :
  protocols_events wayland_scanner files d (before ++ after) =
    (protocols_events wayland_scanner files d before ++
     match protocols_outcome wayland_scanner files before with
     | Ok _ => protocols_events wayland_scanner files d after
     | Raise _ => []
     end)%list.
Proof.
  induction before as [|p before IH]; simpl; [done|].
  destruct (protocol_outcome wayland_scanner files p); simpl.
  - by rewrite IH, <- app_assoc.
  - by rewrite !app_nil_r.
Qed.

(** A document that passes had the scanner run on it once and nothing
    printed. *)
Lemma protocol_events_pass (files : gmap string (list string)) (d : nat)
    (protocol_xml : Path) :
  protocol_outcome wayland_scanner files protocol_xml = Ok tt ->
  scanner_runs (protocol_events wayland_scanner files d protocol_xml)
    = [protocol_xml] /\
  printed (protocol_events wayland_scanner files d protocol_xml) = [].
Proof.
  unfold protocol_outcome, protocol_events, headers_outcome, headers_events.
  destruct (files !! header_filename protocol_xml) as [h|]; [|done].
  destruct (wayland_scanner protocol_xml) as [| rc | g]; try done.
  case_decide; [done|].
  by destruct (first_mismatch 0 g h) as [[[i gl] l]|].
Qed.

Lemma protocols_events_pass (files : gmap string (list string)) (d : nat)
    (protocols : list Path) :
  protocols_outcome wayland_scanner files protocols = Ok tt ->
  scanner_runs (protocols_events wayland_scanner files d protocols)
    = protocols /\
  printed (protocols_events wayland_scanner files d protocols) = [].
Proof.
  induction protocols as [|p rest IH]; [done|].
  cbn [protocols_outcome protocols_events].
  destruct (protocol_outcome wayland_scanner files p) as [[]|e] eqn:Hp;
    [|done].
  intros Hrest. destruct (IH Hrest) as [IHruns IHprinted].
  destruct (protocol_events_pass files d p Hp) as [Hruns Hprinted].
  rewrite scanner_runs_app, printed_app, Hruns, Hprinted, IHruns, IHprinted.
  done.
Qed.

(** A passing document is one whose checked-in header is, line for line,
    what the scanner writes for it. *)
Lemma protocol_outcome_Ok (files : gmap string (list string))
    (protocol_xml : Path) :
  protocol_outcome wayland_scanner files protocol_xml = Ok tt <->
  exists header,
    files !! header_filename protocol_xml = Some header /\
    wayland_scanner protocol_xml = ScannerWrote header.
Proof.
  unfold protocol_outcome, headers_outcome. split.
  - destruct (files !! header_filename protocol_xml) as [h|]; [|done].
    destruct (wayland_scanner protocol_xml) as [| rc | g]; try done.
    case_decide as Hlen; [done|].
    destruct (first_mismatch 0 g h) as [[[i gl] l]|] eqn:Hm; [done|].
    intros _. exists h. split; [done|]. f_equal.
    symmetry. eapply first_mismatch_None; [|done].
    by destruct (decide (length h = length g)).
  - intros (h & -> & ->). case_decide; [done|].
    by rewrite first_mismatch_refl.
Qed.

Lemma protocols_outcome_Ok (files : gmap string (list string))
    (protocols : list Path) :
  protocols_outcome wayland_scanner files protocols = Ok tt <->
  Forall (fun p => protocol_outcome wayland_scanner files p = Ok tt) protocols.
Proof.
  induction protocols as [|p rest IH]; simpl.
  - split; [by constructor|done].
  - rewrite Forall_cons, <- IH.
    destruct (protocol_outcome wayland_scanner files p) as [[]|e];
      [tauto | split; [done | by intros [? _]]].
Qed.

End VerifierFacts.

(** ** Content mismatches *)

(** C1.  When the documents before [protocol_xml] all pass and the
    checked-in header of [protocol_xml] has as many lines as the generated
    one but differs from it, [check] raises the mismatch error for
    [protocol_xml] carrying the 0-based index [k] of the first line at
    which the two differ; the two lines are printed, and the scanner has
    been run on the documents up to [protocol_xml] and on no later one. *)
Theorem check_reports_first_differing_line
    (wayland_scanner : Path -> scanned) (before after : list Path)
    (protocol_xml : Path) (w : World)
    (protocol_header generated_header : list string) :
  expected_files (before ++ protocol_xml :: after) = dom (include_dir w) ->
  fst (check_protocols wayland_scanner before w) = Ok tt ->
  include_dir w !! header_filename protocol_xml = Some protocol_header ->
  wayland_scanner protocol_xml = ScannerWrote generated_header ->
  length protocol_header = length generated_header ->
  protocol_header <> generated_header ->
  exists (k : nat) (generated_line line : string) (evs : list event),
    generated_header !! k = Some generated_line /\
    protocol_header !! k = Some line /\
    generated_line <> line /\
    (forall j, j < k -> generated_header !! j = protocol_header !! j) /\
    fst (check wayland_scanner (before ++ protocol_xml :: after) w)
      = Raise (ValueError (MismatchInLine (name protocol_xml) k)) /\
    trace (snd (check wayland_scanner (before ++ protocol_xml :: after) w))
      = (trace w ++ evs)%list /\
    scanner_runs evs = (before ++ [protocol_xml])%list /\
    printed evs = [ "Expected: " +:+ Str.strip_newlines generated_line;
                    "Got: " +:+ Str.strip_newlines line ].
Proof.
  intros Hset Hbefore Hheader Hscan Hlen Hne.
  rewrite check_protocols_spec in Hbefore; simpl in Hbefore.
  assert (protocol_outcome wayland_scanner (include_dir w) protocol_xml
          = headers_outcome protocol_xml protocol_header generated_header)
    as Hout by (unfold protocol_outcome; by rewrite Hheader, Hscan).
  destruct (first_mismatch 0 generated_header protocol_header)
    as [[[k generated_line] line]|] eqn:Hm.
  2: { exfalso. apply Hne. by eapply first_mismatch_None. }
  destruct (first_mismatch_Some _ _ _ _ _ _ Hm)
    as (j & -> & Hg & Hh & Hdiff & Hleast); simpl in *.
  assert (headers_outcome protocol_xml protocol_header generated_header
          = Raise (ValueError (MismatchInLine (name protocol_xml) j)))
    as Hraise.
  { unfold headers_outcome. case_decide; [done|]. by rewrite Hm. }
  exists j, generated_line, line.
  eexists. rewrite check_spec; simpl.
  repeat split; try done.
  - case_decide; [done|].
    by rewrite protocols_outcome_app, Hbefore; simpl; rewrite Hout, Hraise.
  - unfold check_events. case_decide; [done|].
    cbn [scanner_runs].
    rewrite protocols_events_app, Hbefore.
    cbn [protocols_events protocols_outcome].
    rewrite Hout, Hraise, app_nil_r, scanner_runs_app.
    destruct (protocols_events_pass wayland_scanner (include_dir w)
                (fresh (dom (tmp_dirs w))) before Hbefore) as [-> _].
    f_equal. unfold protocol_events. rewrite Hheader, Hscan; simpl.
    by rewrite scanner_runs_headers_events.
  - unfold check_events. case_decide; [done|].
    cbn [printed].
    rewrite protocols_events_app, Hbefore.
    cbn [protocols_events protocols_outcome].
    rewrite Hout, Hraise, app_nil_r, printed_app.
    destruct (protocols_events_pass wayland_scanner (include_dir w)
                (fresh (dom (tmp_dirs w))) before Hbefore) as [_ ->].
    unfold protocol_events, headers_events. rewrite Hheader, Hscan; simpl.
    case_decide; [done|]. by rewrite Hm.
Qed.

Lemma check_reports_first_differing_line_witness :
  exists (k : nat) (generated_line line : string) (evs : list event),
    Sample.B_header !! k = Some generated_line /\
    Sample.B_stale !! k = Some line /\
    generated_line <> line /\
    (forall j, j < k -> Sample.B_header !! j = Sample.B_stale !! j) /\
    fst (check Sample.scanner ([Sample.A] ++ Sample.B :: [Sample.C])
           Sample.stale_line)
      = Raise (ValueError (MismatchInLine (name Sample.B) k)) /\
    trace (snd (check Sample.scanner ([Sample.A] ++ Sample.B :: [Sample.C])
                  Sample.stale_line))
      = (trace Sample.stale_line ++ evs)%list /\
    scanner_runs evs = ([Sample.A] ++ [Sample.B])%list /\
    printed evs = [ "Expected: " +:+ Str.strip_newlines generated_line;
                    "Got: " +:+ Str.strip_newlines line ].
Proof.
  apply (check_reports_first_differing_line Sample.scanner
           [Sample.A] [Sample.C] Sample.B Sample.stale_line
           Sample.B_stale Sample.B_header).
  - vm_compute. reflexivity.
  - vm_compute. reflexivity.
  - vm_compute. reflexivity.
  - vm_compute. reflexivity.
  - reflexivity.
  - discriminate.
Defined.

(** C5.  When the documents before [protocol_xml] all pass and the
    checked-in header of [protocol_xml] has another number of lines than
    the generated one, [check] raises the line-count error, which carries
    the name of the document and nothing else; no line is printed. *)
Theorem check_reports_line_count_mismatch
    (wayland_scanner : Path -> scanned) (before after : list Path)
    (protocol_xml : Path) (w : World)
    (protocol_header generated_header : list string) :
  expected_files (before ++ protocol_xml :: after) = dom (include_dir w) ->
  fst (check_protocols wayland_scanner before w) = Ok tt ->
  include_dir w !! header_filename protocol_xml = Some protocol_header ->
  wayland_scanner protocol_xml = ScannerWrote generated_header ->
  length protocol_header <> length generated_header ->
  exists evs : list event,
    check wayland_scanner (before ++ protocol_xml :: after) w
      = (Raise (ValueError (MismatchLineCount (name protocol_xml))),
         traced w evs) /\
    scanner_runs evs = (before ++ [protocol_xml])%list /\
    printed evs = [].
Proof.
  intros Hset Hbefore Hheader Hscan Hlen.
  rewrite check_protocols_spec in Hbefore; simpl in Hbefore.
  assert (protocol_outcome wayland_scanner (include_dir w) protocol_xml
          = Raise (ValueError (MismatchLineCount (name protocol_xml))))
    as Hout.
  { unfold protocol_outcome, headers_outcome. rewrite Hheader, Hscan.
    by case_decide. }
  destruct (protocols_events_pass wayland_scanner (include_dir w)
              (fresh (dom (tmp_dirs w))) before Hbefore) as [Hruns Hprinted].
  eexists. rewrite check_spec. split; [|split].
  - case_decide; [done|].
    by rewrite protocols_outcome_app, Hbefore; simpl; rewrite Hout.
  - unfold check_events. case_decide; [done|].
    cbn [scanner_runs].
    rewrite protocols_events_app, Hbefore.
    cbn [protocols_events]. rewrite Hout, app_nil_r, scanner_runs_app, Hruns.
    f_equal. unfold protocol_events. rewrite Hheader, Hscan; simpl.
    by rewrite scanner_runs_headers_events.
  - unfold check_events. case_decide; [done|].
    cbn [printed].
    rewrite protocols_events_app, Hbefore.
    cbn [protocols_events]. rewrite Hout, app_nil_r, printed_app, Hprinted.
    unfold protocol_events, headers_events. rewrite Hheader, Hscan; simpl.
    by case_decide.
Qed.

Lemma check_reports_line_count_mismatch_witness :
  exists evs : list event,
    check Sample.scanner_eleven ([] ++ Sample.A :: []) Sample.ten_lines
      = (Raise (ValueError (MismatchLineCount (name Sample.A))),
         traced Sample.ten_lines evs) /\
    scanner_runs evs = ([] ++ [Sample.A])%list /\
    printed evs = [].
Proof.
  apply (check_reports_line_count_mismatch Sample.scanner_eleven
           [] [] Sample.A Sample.ten_lines
           (replicate 10 "/* ... */
") (replicate 11 "/* ... */
")).
  - vm_compute. reflexivity.
  - reflexivity.
  - vm_compute. reflexivity.
  - reflexivity.
  - simpl. lia.
Defined.

(** ** The set of header files *)

(** The expected file names are the [<stem>-protocol.h] of the documents. *)
Lemma elem_of_expected_files (protocols : list Path) (file : string) :
  file ∈ expected_files protocols <->
  exists protocol_xml,
    protocol_xml ∈ protocols /\ file = stem protocol_xml +:+ "-protocol.h".
Proof.
  unfold expected_files. rewrite elem_of_list_to_set, list_elem_of_fmap.
  unfold header_filename. naive_solver.
Qed.

(** The loop over the documents never raises the error about file names. *)
Lemma protocols_outcome_not_files (wayland_scanner : Path -> scanned)
    (files : gmap string (list string)) (protocols : list Path)
    (unexpected_files extra_files : list string) :
  protocols_outcome wayland_scanner files protocols
    <> Raise (ValueError (UnexpectedProtocolFiles unexpected_files extra_files)).
Proof.
  induction protocols as [|p rest IH]; simpl; [done|].
  destruct (protocol_outcome wayland_scanner files p) as [[]|e] eqn:Hp;
    [done|].
  revert Hp. unfold protocol_outcome, headers_outcome.
  destruct (files !! header_filename p) as [h|]; [|congruence].
  destruct (wayland_scanner p) as [| rc | g]; try congruence.
  case_decide; [congruence|].
  destruct (first_mismatch 0 g h) as [[[i gl] l]|]; congruence.
Qed.

(** C2.  When the expected set of header file names differs from the set
    of names in the include directory, [check] raises the error carrying
    the names expected but absent and the names present but not expected,
    each once; when the two sets are equal it does not raise that error.
    With headers for [A] and [B] checked in and a configuration of [A] and
    [C], the lists are the header of [C] and the header of [B]. *)
Theorem check_reports_symmetric_difference
    (wayland_scanner : Path -> scanned) (protocols : list Path) (w : World) :
  (expected_files protocols <> dom (include_dir w) ->
   exists missing extra : list string,
     fst (check wayland_scanner protocols w)
       = Raise (ValueError (UnexpectedProtocolFiles missing extra)) /\
     NoDup missing /\ NoDup extra /\
     (forall file, file ∈ missing <->
        file ∈ expected_files protocols /\ file ∉ dom (include_dir w)) /\
     (forall file, file ∈ extra <->
        file ∈ dom (include_dir w) /\ file ∉ expected_files protocols)) /\
  (expected_files protocols = dom (include_dir w) ->
   forall missing extra : list string,
     fst (check wayland_scanner protocols w)
       <> Raise (ValueError (UnexpectedProtocolFiles missing extra))) /\
  (forall A B C : Path,
     protocols = [A; C] ->
     dom (include_dir w) = {[header_filename A; header_filename B]} ->
     header_filename C <> header_filename A ->
     header_filename C <> header_filename B ->
     header_filename B <> header_filename A ->
     fst (check wayland_scanner protocols w)
       = Raise (ValueError (UnexpectedProtocolFiles
                  [header_filename C] [header_filename B]))).
Proof.
  rewrite check_spec; simpl. split; [|split].
  - intros Hne. case_decide; [|done].
    eexists _, _. split; [done|].
    split; [apply NoDup_elements|]. split; [apply NoDup_elements|].
    split; intros file; rewrite elem_of_elements; set_solver.
  - intros Heq missing extra. case_decide; [done|].
    apply protocols_outcome_not_files.
  - intros A B C -> Hdom HCA HCB HBA.
    assert (expected_files [A; C] ∖ dom (include_dir w)
            = {[header_filename C]}) as ->.
    { rewrite Hdom. unfold expected_files; simpl. set_solver. }
    assert (dom (include_dir w) ∖ expected_files [A; C]
            = {[header_filename B]}) as ->.
    { rewrite Hdom. unfold expected_files; simpl. set_solver. }
    rewrite !elements_singleton.
    case_decide as Heq; [done|]. exfalso.
    assert (expected_files [A; C] = dom (include_dir w)) as Heq'
      by (by destruct (decide (expected_files [A; C] = dom (include_dir w)))).
    assert (header_filename C ∈ dom (include_dir w)) as Hin.
    { rewrite <- Heq'. unfold expected_files; simpl. set_solver. }
    rewrite Hdom in Hin. set_solver.
Qed.

Lemma check_reports_symmetric_difference_witness :
  fst (check Sample.scanner [Sample.A; Sample.C] Sample.headers_A_B)
    = Raise (ValueError (UnexpectedProtocolFiles
               ["C-protocol.h"] ["B-protocol.h"])).
Proof.
  apply (proj2 (proj2 (check_reports_symmetric_difference Sample.scanner
                         [Sample.A; Sample.C] Sample.headers_A_B))
           Sample.A Sample.B Sample.C).
  - reflexivity.
  - vm_compute. reflexivity.
  - discriminate.
  - discriminate.
  - discriminate.
Defined.

(** C10.  When the two sets of file names differ, [check] raises the
    error about file names having done nothing but list the include
    directory: no header was opened, no temporary directory made and the
    scanner not run.  Anything more in the trace means the sets were
    equal. *)
Theorem check_set_mismatch_precedes_comparison
    (wayland_scanner : Path -> scanned) (protocols : list Path) (w : World) :
  (expected_files protocols <> dom (include_dir w) ->
   check wayland_scanner protocols w
     = (Raise (ValueError (UnexpectedProtocolFiles
                 (elements (expected_files protocols ∖ dom (include_dir w)))
                 (elements (dom (include_dir w) ∖ expected_files protocols)))),
        traced w [Iterdir])) /\
  (forall evs : list event,
     snd (check wayland_scanner protocols w) = traced w evs ->
     evs <> [Iterdir] ->
     expected_files protocols = dom (include_dir w)).
Proof.
  rewrite check_spec. unfold check_events. split.
  - intros Hne. by case_decide.
  - intros evs Hevs Hmore. case_decide as Hne; simpl in Hevs.
    + exfalso. apply Hmore.
      assert (trace (traced w [Iterdir]) = trace (traced w evs)) as Htr
        by (by rewrite Hevs).
      simpl in Htr. by apply app_inv_head in Htr.
    + by destruct (decide (expected_files protocols = dom (include_dir w))).
Qed.

Lemma check_set_mismatch_precedes_comparison_witness :
  check Sample.scanner [Sample.A; Sample.C] Sample.headers_A_B
    = (Raise (ValueError (UnexpectedProtocolFiles
                (elements (expected_files [Sample.A; Sample.C]
                             ∖ dom (include_dir Sample.headers_A_B)))
                (elements (dom (include_dir Sample.headers_A_B)
                             ∖ expected_files [Sample.A; Sample.C])))),
       traced Sample.headers_A_B [Iterdir]).
Proof.
  apply (proj1 (check_set_mismatch_precedes_comparison Sample.scanner
                  [Sample.A; Sample.C] Sample.headers_A_B)).
  apply (bool_decide_unpack _). vm_compute. exact I.
Defined.

(** ** Temporary directories and the include directory *)

(** C9.  The temporary directory of a [with] block is gone when the block
    is left, whether its body returned or raised; so the temporary
    directories after the check of one document, and after [check] as a
    whole, are those there were before, whatever the outcome. *)
Theorem check_removes_temporary_directories
    (wayland_scanner : Path -> scanned) (w : World) :
  (forall (A : Type) (body : location -> M A),
     tmp_dirs (snd (TemporaryDirectory body w))
       !! fresh (dom (tmp_dirs w)) = None) /\
  (forall protocol_xml : Path,
     tmp_dirs (snd (check_protocol wayland_scanner protocol_xml w))
       = tmp_dirs w) /\
  (forall protocols : list Path,
     tmp_dirs (snd (check wayland_scanner protocols w)) = tmp_dirs w).
Proof.
  split; [|split].
  - intros A body. unfold TemporaryDirectory.
    destruct (body _ _) as [r w']; simpl. apply lookup_delete_eq.
  - intros protocol_xml. by rewrite check_protocol_spec.
  - intros protocols. by rewrite check_spec.
Qed.

(** The outcomes the temporary directory has to survive: the scanner
    fails, the comparison fails, the document passes.  In each the
    directory was made, and was removed before the turn ended. *)
Lemma check_protocol_brackets_scanner (wayland_scanner : Path -> scanned)
    (protocol_xml : Path) (w : World) (protocol_header : list string) :
  include_dir w !! header_filename protocol_xml = Some protocol_header ->
  exists evs : list event,
    let d := fresh (dom (tmp_dirs w)) in
    snd (check_protocol wayland_scanner protocol_xml w)
      = traced w (Open Include (header_filename protocol_xml)
                  :: Mkdtemp d
                  :: RunScanner protocol_xml (Tmp d)
                       (header_filename protocol_xml)
                  :: evs) /\
    Rmtree d ∈ evs /\ Mkdtemp d ∉ evs.
Proof.
  intros Hheader. rewrite check_protocol_spec; simpl.
  unfold protocol_events. rewrite Hheader.
  eexists. split; [done|].
  destruct (wayland_scanner protocol_xml) as [| rc | g].
  - split; [set_solver|]. intros Hin. set_solver.
  - split; [set_solver|]. intros Hin. set_solver.
  - split; [set_solver|]. unfold headers_events.
    case_decide; [set_solver|].
    destruct (first_mismatch 0 g protocol_header) as [[[i gl] l]|];
      set_solver.
Qed.

(** [check] never writes to the include directory. *)
Lemma check_include_dir (wayland_scanner : Path -> scanned)
    (protocols : list Path) (w : World) :
  include_dir (snd (check wayland_scanner protocols w)) = include_dir w.
Proof. by rewrite check_spec. Qed.

(** C4.  A successful [check] leaves the include directory and the
    temporary directories as they were and prints nothing, having run the
    scanner once for each document; run again on the state it left, it
    succeeds again, doing the same things. *)
Theorem check_success_is_repeatable
    (wayland_scanner : Path -> scanned) (protocols : list Path) (w : World) :
  fst (check wayland_scanner protocols w) = Ok tt ->
  exists evs : list event,
    check wayland_scanner protocols w = (Ok tt, traced w evs) /\
    include_dir (traced w evs) = include_dir w /\
    tmp_dirs (traced w evs) = tmp_dirs w /\
    printed evs = [] /\
    scanner_runs evs = protocols /\
    check wayland_scanner protocols (traced w evs)
      = (Ok tt, traced (traced w evs) evs).
Proof.
  intros Hok. rewrite check_spec in Hok. simpl in Hok.
  exists (check_events wayland_scanner (include_dir w)
            (fresh (dom (tmp_dirs w))) protocols).
  rewrite !check_spec; simpl. rewrite Hok.
  repeat split.
  - unfold check_events. case_decide; [done|].
    cbn [printed]. by apply protocols_events_pass.
  - unfold check_events. case_decide; [done|].
    cbn [scanner_runs]. by apply protocols_events_pass.
Qed.

Lemma check_success_is_repeatable_witness :
  exists evs : list event,
    check Sample.scanner [Sample.A; Sample.B; Sample.C] Sample.consistent
      = (Ok tt, traced Sample.consistent evs) /\
    include_dir (traced Sample.consistent evs)
      = include_dir Sample.consistent /\
    tmp_dirs (traced Sample.consistent evs) = tmp_dirs Sample.consistent /\
    printed evs = [] /\
    scanner_runs evs = [Sample.A; Sample.B; Sample.C] /\
    check Sample.scanner [Sample.A; Sample.B; Sample.C]
        (traced Sample.consistent evs)
      = (Ok tt, traced (traced Sample.consistent evs) evs).
Proof.
  apply (check_success_is_repeatable Sample.scanner
           [Sample.A; Sample.B; Sample.C] Sample.consistent).
  vm_compute. reflexivity.
Defined.

(** ** Regenerating, then checking *)

Section Generate.

Variable wayland_scanner : Path -> scanned.

Lemma generate_spec (protocols : list Path) (w : World) :
  scanner_succeeds wayland_scanner protocols ->
  generate wayland_scanner protocols w =
    (Ok tt,
     {| include_dir := generated_files wayland_scanner (include_dir w) protocols;
        tmp_dirs := tmp_dirs w;
        trace := (trace w ++
                  List.map (fun p => RunScanner p Include (header_filename p))
                    protocols)%list |}).
Proof.
  revert w. induction protocols as [|p rest IH]; intros w Hok; simpl.
  - destruct w; simpl. by rewrite app_nil_r.
  - destruct (Hok p) as [header Hp]; [set_solver|].
    unfold bind, generate_protocol_header, emit, write_file, ret; simpl.
    rewrite Hp; simpl. rewrite IH by (intros q Hq; apply Hok; set_solver).
    simpl. by rewrite <- app_assoc.
Qed.

Lemma generated_files_dom (files : gmap string (list string))
    (protocols : list Path) :
  scanner_succeeds wayland_scanner protocols ->
  dom (generated_files wayland_scanner files protocols)
    = dom files ∪ expected_files protocols.
Proof.
  revert files. induction protocols as [|p rest IH]; intros files Hok; simpl.
  - unfold expected_files; simpl. set_solver.
  - destruct (Hok p) as [header Hp]; [set_solver|]. rewrite Hp.
    rewrite IH by (intros q Hq; apply Hok; set_solver).
    rewrite dom_insert_L. unfold expected_files; simpl. set_solver.
Qed.

(** A file that is the header of none of the documents is left alone. *)
Lemma generated_files_other (files : gmap string (list string))
    (protocols : list Path) (file : string) :
  file ∉ expected_files protocols ->
  generated_files wayland_scanner files protocols !! file = files !! file.
Proof.
  revert files. induction protocols as [|p rest IH]; intros files Hfile;
    simpl; [done|].
  destruct (wayland_scanner p) as [| rc | header]; try done.
  rewrite IH by (unfold expected_files in *; simpl in Hfile; set_solver).
  apply lookup_insert_ne. unfold expected_files in Hfile; simpl in Hfile.
  set_solver.
Qed.

(** When documents that share a header file name have the same header
    written for them, the include directory after [generate] holds, for
    each document, what the scanner writes for it. *)
Lemma generated_files_lookup (files : gmap string (list string))
    (protocols : list Path) (protocol_xml : Path) :
  scanner_succeeds wayland_scanner protocols ->
  (forall p q, p ∈ protocols -> q ∈ protocols ->
     header_filename p = header_filename q ->
     wayland_scanner p = wayland_scanner q) ->
  protocol_xml ∈ protocols ->
  exists header,
    wayland_scanner protocol_xml = ScannerWrote header /\
    generated_files wayland_scanner files protocols
      !! header_filename protocol_xml = Some header.
Proof.
  revert files protocol_xml.
  induction protocols as [|p rest IH]; intros files protocol_xml Hok Hsame Hin;
    [by apply elem_of_nil in Hin|].
  simpl. destruct (Hok p) as [header Hp]; [set_solver|]. rewrite Hp.
  assert (scanner_succeeds wayland_scanner rest) as Hok'
    by (intros q Hq; apply Hok; set_solver).
  assert (forall p q, p ∈ rest -> q ∈ rest ->
            header_filename p = header_filename q ->
            wayland_scanner p = wayland_scanner q) as Hsame'
    by (intros a b Ha Hb; apply Hsame; set_solver).
  destruct (decide (header_filename protocol_xml ∈ expected_files rest))
    as [Hlater|Hlast].
  - apply elem_of_list_to_set, list_elem_of_fmap in Hlater
      as (q & Hname & Hq).
    destruct (IH (<[header_filename p:=header]> files) q Hok' Hsame' Hq)
      as (hq & Hscan & Hlookup).
    exists hq. rewrite Hname. split; [|done].
    rewrite <- Hscan. apply Hsame; [done|set_solver|done].
  - rewrite generated_files_other by done.
    apply elem_of_cons in Hin as [->|Hin].
    + exists header. by rewrite lookup_insert_eq.
    + exfalso. apply Hlast.
      apply elem_of_list_to_set, list_elem_of_fmap. by exists protocol_xml.
Qed.

End Generate.

(** C3, as stated, fails: [generate] removes nothing, so a header left
    over from an earlier configuration is still there when [check] lists
    the include directory. *)
Lemma generate_then_check_counterexample :
  (forall p, exists header, Sample.scanner_eleven p = ScannerWrote header) /\
  fst (generate Sample.scanner_eleven [Sample.A] Sample.leftover) = Ok tt /\
  fst (check Sample.scanner_eleven [Sample.A]
         (snd (generate Sample.scanner_eleven [Sample.A] Sample.leftover)))
    = Raise (ValueError (UnexpectedProtocolFiles [] ["B-protocol.h"])).
Proof.
  split; [|split].
  - intros p. by eexists.
  - reflexivity.
  - vm_compute. reflexivity.
Qed.

(** Nor does it hold for two documents of the same stem with different
    headers: the second overwrites the header of the first. *)
Lemma generate_then_check_same_stem :
  fst (generate Sample.scanner_by_path [Sample.A_wayland; Sample.A_wlroots]
         (Sample.world [])) = Ok tt /\
  fst (check Sample.scanner_by_path [Sample.A_wayland; Sample.A_wlroots]
         (snd (generate Sample.scanner_by_path
                 [Sample.A_wayland; Sample.A_wlroots] (Sample.world []))))
    = Raise (ValueError (MismatchInLine "A.xml" 0)).
Proof. split; vm_compute; reflexivity. Qed.

(** C3, amended.  When the scanner succeeds on every document, every file
    of the include directory is the header of some document, and
    documents that share a header file name have the same header written
    for them, [generate] succeeds and [check] succeeds after it. *)
Theorem generate_then_check_succeeds
    (wayland_scanner : Path -> scanned) (protocols : list Path) (w : World) :
  scanner_succeeds wayland_scanner protocols ->
  dom (include_dir w) ⊆ expected_files protocols ->
  (forall p q, p ∈ protocols -> q ∈ protocols ->
     header_filename p = header_filename q ->
     wayland_scanner p = wayland_scanner q) ->
  fst (generate wayland_scanner protocols w) = Ok tt /\
  fst (check wayland_scanner protocols
         (snd (generate wayland_scanner protocols w))) = Ok tt.
Proof.
  intros Hok Hdom Hsame. rewrite generate_spec by done. split; [done|].
  rewrite check_spec; simpl.
  rewrite generated_files_dom by done.
  case_decide as Hne; [exfalso; apply Hne; set_solver|].
  apply protocols_outcome_Ok, Forall_forall. intros p Hp.
  apply protocol_outcome_Ok.
  destruct (generated_files_lookup wayland_scanner (include_dir w)
              protocols p Hok Hsame Hp) as (header & Hscan & Hlookup).
  by exists header.
Qed.

Lemma generate_then_check_succeeds_witness :
  fst (generate Sample.scanner_eleven [Sample.A; Sample.B; Sample.C]
         Sample.stale_line) = Ok tt /\
  fst (check Sample.scanner_eleven [Sample.A; Sample.B; Sample.C]
         (snd (generate Sample.scanner_eleven [Sample.A; Sample.B; Sample.C]
                 Sample.stale_line))) = Ok tt.
Proof.
  apply (generate_then_check_succeeds Sample.scanner_eleven
           [Sample.A; Sample.B; Sample.C] Sample.stale_line).
  - intros p _. exists (replicate 11 "/* ... */
"). reflexivity.
  - apply (bool_decide_unpack _). vm_compute. exact I.
  - intros p q _ _ _. reflexivity.
Defined.

(** ** Resolving the protocol documents *)

Lemma first_missing_None (path_exists : Path -> bool) (protocols : list Path) :
  first_missing path_exists protocols = None <->
  Forall (fun p => path_exists p = true) protocols.
Proof.
  induction protocols as [|p rest IH]; simpl.
  - split; [by constructor|done].
  - rewrite Forall_cons, <- IH.
    destruct (path_exists p); simpl; [tauto|].
    split; [done|]. by intros [? _].
Qed.

Lemma first_missing_Some (path_exists : Path -> bool) (protocols : list Path)
    (p : Path) :
  p ∈ protocols -> path_exists p = false ->
  exists q, first_missing path_exists protocols = Some q.
Proof.
  intros Hin Hp.
  destruct (first_missing path_exists protocols) as [q|] eqn:Hq; [by exists q|].
  apply first_missing_None in Hq.
  rewrite Forall_forall in Hq. specialize (Hq p Hin). congruence.
Qed.

(** [parse_args] returns exactly when the default could be computed, both
    directories are known and exist, and every document exists. *)
Lemma parse_args_Ok (pkgconf : completed) (path_exists : Path -> bool)
    (argv : CommandLine) (protocols : list Path) (generate_headers : bool) :
  parse_args pkgconf path_exists argv = Ok (protocols, generate_headers) <->
  exists (default : option Path) (wayland_dir : Path) (wlroots : string),
    get_wayland_protocols_dir pkgconf = Ok default /\
    wayland_dir_of pkgconf argv = Some wayland_dir /\
    opt_wlroots_dir argv = Some wlroots /\
    path_exists wayland_dir = true /\
    path_exists (Path_of_string wlroots) = true /\
    Forall (fun p => path_exists p = true)
      (resolved wayland_dir (Path_of_string wlroots)) /\
    protocols = resolved wayland_dir (Path_of_string wlroots) /\
    generate_headers = opt_generate argv.
Proof.
  unfold parse_args, wayland_dir_of, resolved.
  destruct (get_wayland_protocols_dir pkgconf) as [default|e].
  2: { split; [done|]. by intros (? & ? & ? & ? & _). }
  destruct (opt_wlroots_dir argv) as [wlroots|].
  2: { split; [done|]. by intros (? & ? & ? & _ & _ & ? & _). }
  destruct (match opt_wayland_dir argv with
            | Some s => Some (Path_of_string s)
            | None => default
            end) as [wayland_dir|].
  2: { split; [done|]. by intros (? & ? & ? & _ & ? & _). }
  destruct (path_exists wayland_dir) eqn:Hwayland; cbn [negb].
  2: { split; [done|]. intros (? & ? & ? & _ & [= <-] & _ & ? & _).
       congruence. }
  destruct (path_exists (Path_of_string wlroots)) eqn:Hwlroots; cbn [negb].
  2: { split; [done|]. intros (? & ? & ? & _ & _ & [= <-] & _ & ? & _).
       congruence. }
  match goal with
  | |- context [first_missing path_exists ?l] =>
      destruct (first_missing path_exists l) as [missing|] eqn:Hmissing
  end.
  - split; [done|].
    intros (? & ? & ? & _ & [= <-] & [= <-] & _ & _ & Hall & _).
    apply first_missing_None in Hall. congruence.
  - apply first_missing_None in Hmissing. split.
    + intros [= <- <-]. by exists default, wayland_dir, wlroots.
    + by intros (? & ? & ? & _ & [= <-] & [= <-] & _ & _ & _ & -> & ->).
Qed.

Lemma last_app_cons (l l' : list string) (a d : string) :
  List.last (l ++ a :: l') d = List.last (a :: l') d.
Proof.
  induction l as [|b l IH]; [done|].
  rewrite <- IH. cbn [app List.last]. by destruct l.
Qed.

(** Whatever the two directories, the headers of the configured documents
    have these six names, all different. *)
Lemma resolved_header_filenames (wayland_dir wlroots_dir : Path) :
  List.map header_filename (resolved wayland_dir wlroots_dir) =
    [ "xdg-shell-protocol.h";
      "idle-inhibit-unstable-v1-protocol.h";
      "pointer-constraints-unstable-v1-protocol.h";
      "idle-protocol.h";
      "wlr-output-power-management-unstable-v1-protocol.h";
      "wlr-layer-shell-unstable-v1-protocol.h" ].
Proof.
  unfold resolved, header_filename, stem, name, joinpath. simpl.
  by rewrite !last_app_cons.
Qed.

Lemma resolved_header_filenames_NoDup (wayland_dir wlroots_dir : Path) :
  NoDup (List.map header_filename (resolved wayland_dir wlroots_dir)).
Proof.
  rewrite resolved_header_filenames.
  apply (bool_decide_unpack _). by vm_compute.
Qed.

(** C6.  What [parse_args] returns is the list of the shared documents
    below the one directory, in the order of their table, followed by the
    project's documents below the other, in the order of theirs: one entry
    for each relative path of the two tables, at the place that path has
    there.  It returns that list whenever the directories and documents
    exist. *)
Theorem parse_args_keeps_declared_order
    (pkgconf : completed) (path_exists : Path -> bool) (argv : CommandLine) :
  (forall (protocols : list Path) (generate_headers : bool),
     parse_args pkgconf path_exists argv = Ok (protocols, generate_headers) ->
     exists (wayland_dir : Path) (wlroots : string),
       wayland_dir_of pkgconf argv = Some wayland_dir /\
       opt_wlroots_dir argv = Some wlroots /\
       protocols
         = (List.map (joinpath wayland_dir) WAYLAND_PROCOTOLS ++
            List.map (joinpath (Path_of_string wlroots)) WLROOTS_PROTOCOLS)%list /\
       length protocols
         = length WAYLAND_PROCOTOLS + length WLROOTS_PROTOCOLS /\
       (forall i relative, WAYLAND_PROCOTOLS !! i = Some relative ->
          protocols !! i = Some (joinpath wayland_dir relative)) /\
       (forall i relative, WLROOTS_PROTOCOLS !! i = Some relative ->
          protocols !! (length WAYLAND_PROCOTOLS + i)
            = Some (joinpath (Path_of_string wlroots) relative))) /\
  (forall (default : option Path) (wayland_dir : Path) (wlroots : string),
     get_wayland_protocols_dir pkgconf = Ok default ->
     wayland_dir_of pkgconf argv = Some wayland_dir ->
     opt_wlroots_dir argv = Some wlroots ->
     path_exists wayland_dir = true ->
     path_exists (Path_of_string wlroots) = true ->
     Forall (fun p => path_exists p = true)
       (resolved wayland_dir (Path_of_string wlroots)) ->
     parse_args pkgconf path_exists argv
       = Ok (resolved wayland_dir (Path_of_string wlroots), opt_generate argv)).
Proof.
  split.
  - intros protocols generate_headers Hok.
    apply parse_args_Ok in Hok
      as (default & wayland_dir & wlroots & _ & Hwayland & Hwlroots & _ & _
          & _ & -> & _).
    exists wayland_dir, wlroots. unfold resolved.
    split; [done|]. split; [done|]. split; [done|].
    split; [by rewrite length_app, !length_map|]. split.
    + intros i relative Hi.
      rewrite lookup_app_l
        by (rewrite length_map; by eapply lookup_lt_Some).
      change (List.map (joinpath wayland_dir) WAYLAND_PROCOTOLS)
        with (joinpath wayland_dir <$> WAYLAND_PROCOTOLS).
      by rewrite list_lookup_fmap, Hi.
    + intros i relative Hi.
      rewrite lookup_app_r by (rewrite length_map; lia).
      rewrite length_map.
      replace (length WAYLAND_PROCOTOLS + i - length WAYLAND_PROCOTOLS)
        with i by lia.
      change (List.map (joinpath (Path_of_string wlroots)) WLROOTS_PROTOCOLS)
        with (joinpath (Path_of_string wlroots) <$> WLROOTS_PROTOCOLS).
      by rewrite list_lookup_fmap, Hi.
  - intros default wayland_dir wlroots Hdefault Hwayland Hwlroots ? ? ?.
    apply parse_args_Ok. by exists default, wayland_dir, wlroots.
Qed.

Lemma parse_args_keeps_declared_order_witness :
  exists (wayland_dir : Path) (wlroots : string),
    wayland_dir_of Sample.pkgconf Sample.argv = Some wayland_dir /\
    opt_wlroots_dir Sample.argv = Some wlroots /\
    resolved (Path_of_string "/usr/share/wayland-protocols")
        (Path_of_string "/src/wlroots")
      = (List.map (joinpath wayland_dir) WAYLAND_PROCOTOLS ++
         List.map (joinpath (Path_of_string wlroots)) WLROOTS_PROTOCOLS)%list /\
    length (resolved (Path_of_string "/usr/share/wayland-protocols")
              (Path_of_string "/src/wlroots"))
      = length WAYLAND_PROCOTOLS + length WLROOTS_PROTOCOLS /\
    (forall i relative, WAYLAND_PROCOTOLS !! i = Some relative ->
       resolved (Path_of_string "/usr/share/wayland-protocols")
           (Path_of_string "/src/wlroots") !! i
         = Some (joinpath wayland_dir relative)) /\
    (forall i relative, WLROOTS_PROTOCOLS !! i = Some relative ->
       resolved (Path_of_string "/usr/share/wayland-protocols")
           (Path_of_string "/src/wlroots")
           !! (length WAYLAND_PROCOTOLS + i)
         = Some (joinpath (Path_of_string wlroots) relative)).
Proof.
  apply (proj1 (parse_args_keeps_declared_order
                  Sample.pkgconf Sample.path_exists Sample.argv)
           (resolved (Path_of_string "/usr/share/wayland-protocols")
              (Path_of_string "/src/wlroots")) false).
  vm_compute. reflexivity.
Defined.

(** C7.  [parse_args] returns only when both directories are known and
    exist and every resolved document exists; it raises when a directory
    is not given and has no default, when a directory does not exist, and
    when a resolved document does not exist. *)
Theorem parse_args_requires_existing_paths
    (pkgconf : completed) (path_exists : Path -> bool) (argv : CommandLine) :
  (forall (protocols : list Path) (generate_headers : bool),
     parse_args pkgconf path_exists argv = Ok (protocols, generate_headers) ->
     exists (wayland_dir : Path) (wlroots : string),
       wayland_dir_of pkgconf argv = Some wayland_dir /\
       opt_wlroots_dir argv = Some wlroots /\
       path_exists wayland_dir = true /\
       path_exists (Path_of_string wlroots) = true /\
       Forall (fun p => path_exists p = true) protocols) /\
  (wayland_dir_of pkgconf argv = None ->
   exists e, parse_args pkgconf path_exists argv = Raise e) /\
  (opt_wlroots_dir argv = None ->
   exists e, parse_args pkgconf path_exists argv = Raise e) /\
  (forall wayland_dir,
     wayland_dir_of pkgconf argv = Some wayland_dir ->
     path_exists wayland_dir = false ->
     exists e, parse_args pkgconf path_exists argv = Raise e) /\
  (forall wlroots,
     opt_wlroots_dir argv = Some wlroots ->
     path_exists (Path_of_string wlroots) = false ->
     exists e, parse_args pkgconf path_exists argv = Raise e) /\
  (forall wayland_dir wlroots protocol,
     wayland_dir_of pkgconf argv = Some wayland_dir ->
     opt_wlroots_dir argv = Some wlroots ->
     protocol ∈ resolved wayland_dir (Path_of_string wlroots) ->
     path_exists protocol = false ->
     exists e, parse_args pkgconf path_exists argv = Raise e).
Proof.
  assert (forall P : Prop,
            (forall protocols generate_headers,
               parse_args pkgconf path_exists argv
                 = Ok (protocols, generate_headers) -> ~ P) ->
            P -> exists e, parse_args pkgconf path_exists argv = Raise e)
    as Hraise.
  { intros P Hnot HP.
    destruct (parse_args pkgconf path_exists argv) as [[protocols g]|e]
      eqn:Hparse; [|by exists e].
    by destruct (Hnot protocols g eq_refl). }
  split; [|repeat split].
  - intros protocols generate_headers Hok.
    apply parse_args_Ok in Hok
      as (default & wayland_dir & wlroots & _ & ? & ? & ? & ? & ? & -> & _).
    by exists wayland_dir, wlroots.
  - apply Hraise. intros protocols g Hok Hnone.
    apply parse_args_Ok in Hok as (? & ? & ? & _ & ? & _). congruence.
  - apply Hraise. intros protocols g Hok Hnone.
    apply parse_args_Ok in Hok as (? & ? & ? & _ & _ & ? & _). congruence.
  - intros wayland_dir Hdir Hmissing. revert Hmissing.
    apply Hraise. intros protocols g Hok Hmissing.
    apply parse_args_Ok in Hok as (? & ? & ? & _ & ? & _ & ? & _). congruence.
  - intros wlroots Hdir Hmissing. revert Hmissing.
    apply Hraise. intros protocols g Hok Hmissing.
    apply parse_args_Ok in Hok as (? & ? & ? & _ & _ & ? & _ & ? & _).
    congruence.
  - intros wayland_dir wlroots protocol Hwayland Hwlroots Hin Hmissing.
    revert Hmissing.
    apply Hraise. intros protocols g Hok Hmissing.
    apply parse_args_Ok in Hok
      as (? & ? & ? & _ & Hwayland' & Hwlroots' & _ & _ & Hall & _).
    rewrite Hwayland in Hwayland'. rewrite Hwlroots in Hwlroots'.
    injection Hwayland' as <-. injection Hwlroots' as <-.
    rewrite Forall_forall in Hall. specialize (Hall protocol Hin). congruence.
Qed.

Lemma parse_args_requires_existing_paths_witness :
  exists e,
    parse_args Sample.pkgconf
        (fun p => bool_decide (p ∈ take 7 Sample.on_disk)) Sample.argv
      = Raise e.
Proof.
  apply (proj2 (proj2 (proj2 (proj2 (proj2
           (parse_args_requires_existing_paths Sample.pkgconf
              (fun p => bool_decide (p ∈ take 7 Sample.on_disk))
              Sample.argv)))))
           (Path_of_string "/usr/share/wayland-protocols") "/src/wlroots"
           (joinpath (Path_of_string "/src/wlroots")
              "protocol/wlr-layer-shell-unstable-v1.xml")).
  - vm_compute. reflexivity.
  - reflexivity.
  - apply (bool_decide_unpack _). vm_compute. exact I.
  - vm_compute. reflexivity.
Defined.

(** ** The default directory of the shared protocols *)

(** C8.  The code does not do what the claim says.  The [try] of
    [get_wayland_protocols_dir] catches the error of a [pkgconf] that
    exits with a status other than zero, and not that of a [pkgconf] that
    cannot be started: then no invocation took place, the error leaves
    [get_wayland_protocols_dir] where [None] was due, and, the default
    being computed while the parser is built, it ends [parse_args] even
    when [--wayland-dir] is given. *)
Theorem get_wayland_protocols_dir_not_started :
  (exists e, check_output "pkgconf" NotStarted = Raise e) /\
  get_wayland_protocols_dir NotStarted = Raise (OSError "pkgconf") /\
  get_wayland_protocols_dir NotStarted <> Ok None /\
  parse_args NotStarted Sample.path_exists
      {| opt_wayland_dir := Some "/usr/share/wayland-protocols";
         opt_wlroots_dir := Some "/src/wlroots";
         opt_generate := false |}
    = Raise (OSError "pkgconf").
Proof.
  split; [by eexists|]. split; [reflexivity|]. split; [discriminate|].
  reflexivity.
Qed.

(** The failure that is caught: when [pkgconf] runs and exits with a
    status other than zero, the default is [None] and nothing is raised. *)
Lemma get_wayland_protocols_dir_nonzero_exit
    (returncode : Z) (output : bytes) :
  returncode <> 0%Z ->
  get_wayland_protocols_dir (Exited returncode output) = Ok None.
Proof.
  intros Hcode. unfold get_wayland_protocols_dir, check_output.
  by destruct (Z.eqb_spec returncode 0).
Qed.

(** When [pkgconf] exits with status zero the default is the path it
    printed, or [None] when it printed nothing but white space. *)
Lemma get_wayland_protocols_dir_zero_exit (output : string) :
  get_wayland_protocols_dir (Exited 0 (Utf8 output))
    = Ok (if String.eqb (Str.strip_space output) "" then None
          else Some (Path_of_string (Str.strip_space output))).
Proof.
  unfold get_wayland_protocols_dir; simpl.
  by destruct (String.eqb (Str.strip_space output) "").
Qed.

(** * Further properties *)

(** ** Header file names *)

Lemma rfind_last_occurrence (c : ascii) (s1 s2 : string) :
  Str.rfind c s2 = None ->
  Str.rfind c (s1 +:+ String c s2) = Some (String.length s1).
Proof.
  intros Hnone. induction s1 as [|a s1 IH]; simpl.
  - by rewrite Hnone, Ascii.eqb_refl.
  - by rewrite IH.
Qed.

Lemma take_app_length (s1 s2 : string) :
  Str.take (String.length s1) (s1 +:+ s2) = s1.
Proof. induction s1 as [|a s1 IH]; simpl; [by destruct s2|by rewrite IH]. Qed.

Lemma string_length_app (s1 s2 : string) :
  String.length (s1 +:+ s2) = String.length s1 + String.length s2.
Proof. induction s1 as [|a s1 IH]; simpl; [done|by rewrite IH]. Qed.

(** X1.  For a document whose name is [base.ext], with [base] not empty
    and [ext] not empty and free of dots, the header is [base-protocol.h]:
    the last suffix is removed, and only that one. *)
Theorem header_filename_drops_last_suffix (xml_file : Path) (base ext : string) :
  name xml_file = base +:+ "." +:+ ext ->
  base <> "" -> ext <> "" -> Str.rfind "."%char ext = None ->
  header_filename xml_file = base +:+ "-protocol.h".
Proof.
  intros Hname Hbase Hext Hdot. unfold header_filename, stem.
  rewrite Hname.
  change (base +:+ "." +:+ ext) with (base +:+ String "."%char ext).
  rewrite rfind_last_occurrence by done.
  rewrite string_length_app; simpl.
  assert (0 < String.length base) by (destruct base; [done|simpl; lia]).
  assert (0 < String.length ext) by (destruct ext; [done|simpl; lia]).
  replace (Nat.ltb 0 (String.length base)) with true
    by (symmetry; apply Nat.ltb_lt; lia).
  replace (Nat.ltb (String.length base)
             (String.length base + S (String.length ext) - 1)) with true
    by (symmetry; apply Nat.ltb_lt; lia).
  simpl. by rewrite take_app_length.
Qed.

Lemma header_filename_drops_last_suffix_witness :
  header_filename (Path_of_string "/usr/share/a/archive.tar.xml")
    = "archive.tar" +:+ "-protocol.h".
Proof.
  apply (header_filename_drops_last_suffix
           (Path_of_string "/usr/share/a/archive.tar.xml") "archive.tar" "xml").
  - reflexivity.
  - discriminate.
  - discriminate.
  - reflexivity.
Defined.

(** A name whose only dot is its first character is kept whole. *)
Lemma header_filename_leading_dot (xml_file : Path) (ext : string) :
  name xml_file = "." +:+ ext -> Str.rfind "."%char ext = None ->
  header_filename xml_file = "." +:+ ext +:+ "-protocol.h".
Proof.
  intros Hname Hdot. unfold header_filename, stem. rewrite Hname.
  change ("." +:+ ext) with (String "."%char ext).
  simpl. by rewrite Hdot.
Qed.

(** X2.  The header of a document below a directory does not depend on
    the directory: it is the header of the relative path alone, as long as
    that path has a component. *)
Theorem header_filename_joinpath (directory : Path) (relative : string) :
  parts (Path_of_string relative) <> [] ->
  header_filename (joinpath directory relative)
    = header_filename (Path_of_string relative).
Proof.
  intros Hparts.
  assert (name (joinpath directory relative)
          = name (Path_of_string relative)) as Hname.
  { unfold joinpath, name.
    set (q := Path_of_string relative) in *.
    destruct (absolute q); [done|]. cbn [parts].
    destruct (parts q) as [|a l]; [done|]. apply last_app_cons. }
  unfold header_filename, stem. by rewrite Hname.
Qed.

Lemma header_filename_joinpath_witness :
  header_filename (joinpath (Path_of_string "/src/wlroots") "protocol/idle.xml")
    = header_filename (Path_of_string "protocol/idle.xml").
Proof.
  apply (header_filename_joinpath (Path_of_string "/src/wlroots")
           "protocol/idle.xml").
  discriminate.
Defined.

(** ** When [check] succeeds, and how it fails *)

(** The two conditions under which [check] succeeds. *)
Lemma check_Ok_iff
    (wayland_scanner : Path -> scanned) (protocols : list Path) (w : World) :
  fst (check wayland_scanner protocols w) = Ok tt <->
  expected_files protocols = dom (include_dir w) /\
  forall p, p ∈ protocols ->
    exists header,
      include_dir w !! header_filename p = Some header /\
      wayland_scanner p = ScannerWrote header.
Proof.
  rewrite check_spec; simpl. case_decide as Hne.
  - split; [done|]. by intros [Heq _].
  - rewrite protocols_outcome_Ok, Forall_forall.
    split.
    + intros Hall. split.
      * by destruct (decide (expected_files protocols = dom (include_dir w))).
      * intros p Hp. by apply protocol_outcome_Ok, Hall.
    + intros [_ Hall] p Hp. by apply protocol_outcome_Ok, Hall.
Qed.

(** X3.  [check] succeeds exactly when the include directory holds the
    expected files and no other, and the header checked in for each
    document is, line for line, what the scanner writes for it. *)
Theorem check_succeeds_iff
    (wayland_scanner : Path -> scanned) (protocols : list Path) (w : World) :
  fst (check wayland_scanner protocols w) = Ok tt <->
  expected_files protocols = dom (include_dir w) /\
  forall p, p ∈ protocols ->
    exists header,
      include_dir w !! header_filename p = Some header /\
      wayland_scanner p = ScannerWrote header.
Proof.
  rewrite check_spec; simpl.
  destruct (decide (expected_files protocols ≠ dom (include_dir w)))
    as [Hne|Heq].
  - split; [done|]. by intros [Heq _].
  - assert (expected_files protocols = dom (include_dir w)) as Hsets
      by (by destruct (decide (expected_files protocols = dom (include_dir w)))).
    rewrite protocols_outcome_Ok, Forall_forall. split.
    + intros Hall. split; [done|].
      intros p Hp. by apply protocol_outcome_Ok, Hall.
    + intros [_ Hall] p Hp. by apply protocol_outcome_Ok, Hall.
Qed.

Lemma check_succeeds_iff_witness :
  fst (check Sample.scanner [Sample.A; Sample.B; Sample.C] Sample.consistent)
    = Ok tt.
Proof.
  apply (proj2 (check_succeeds_iff Sample.scanner
                  [Sample.A; Sample.B; Sample.C] Sample.consistent)).
  split.
  - vm_compute. reflexivity.
  - intros p Hp.
    apply list_elem_of_In in Hp.
    destruct Hp as [<-|[<-|[<-|[]]]].
    + exists Sample.A_header. split; vm_compute; reflexivity.
    + exists Sample.B_header. split; vm_compute; reflexivity.
    + exists Sample.C_header. split; vm_compute; reflexivity.
Defined.

(** X4.  Whether [check] succeeds does not depend on the order of the
    documents or on a document being listed more than once. *)
Theorem check_success_depends_on_set
    (wayland_scanner : Path -> scanned) (protocols protocols' : list Path)
    (w : World) :
  (forall p, p ∈ protocols <-> p ∈ protocols') ->
  (fst (check wayland_scanner protocols w) = Ok tt <->
   fst (check wayland_scanner protocols' w) = Ok tt).
Proof.
  intros Hsame.
  assert (expected_files protocols = expected_files protocols') as Hexp.
  { apply set_eq. intros file. rewrite !elem_of_expected_files.
    split; intros (p & Hp & ->); exists p; split; try done; by apply Hsame. }
  rewrite !check_Ok_iff, Hexp.
  split; intros [Heq Hall]; (split; [done|]); intros p Hp;
    by apply Hall, Hsame.
Qed.

Lemma check_success_depends_on_set_witness :
  fst (check Sample.scanner [Sample.A; Sample.B; Sample.C] Sample.consistent)
    = Ok tt <->
  fst (check Sample.scanner [Sample.C; Sample.A; Sample.B; Sample.A]
         Sample.consistent) = Ok tt.
Proof.
  apply (check_success_depends_on_set Sample.scanner
           [Sample.A; Sample.B; Sample.C]
           [Sample.C; Sample.A; Sample.B; Sample.A] Sample.consistent).
  intros p. rewrite !list_elem_of_In. simpl. tauto.
Defined.

(** X6.  When the documents before [protocol_xml] all pass and the scanner
    exits with a status other than zero on [protocol_xml], [check] raises
    the error of the scanner; nothing is printed, the later documents are
    not scanned, and the temporary directories are as before. *)
Theorem check_propagates_scanner_failure
    (wayland_scanner : Path -> scanned) (before after : list Path)
    (protocol_xml : Path) (w : World) (returncode : Z) :
  expected_files (before ++ protocol_xml :: after) = dom (include_dir w) ->
  fst (check_protocols wayland_scanner before w) = Ok tt ->
  wayland_scanner protocol_xml = ScannerFailed returncode ->
  exists evs : list event,
    check wayland_scanner (before ++ protocol_xml :: after) w
      = (Raise (CalledProcessError returncode "wayland-scanner"),
         traced w evs) /\
    scanner_runs evs = (before ++ [protocol_xml])%list /\
    printed evs = [].
Proof.
  intros Hset Hbefore Hscan.
  rewrite check_protocols_spec in Hbefore; simpl in Hbefore.
  assert (header_filename protocol_xml ∈ dom (include_dir w)) as Hin.
  { rewrite <- Hset. apply elem_of_expected_files.
    exists protocol_xml. split; [set_solver|done]. }
  apply elem_of_dom in Hin as [header Hheader].
  assert (protocol_outcome wayland_scanner (include_dir w) protocol_xml
          = Raise (CalledProcessError returncode "wayland-scanner")) as Hout.
  { unfold protocol_outcome. by rewrite Hheader, Hscan. }
  destruct (protocols_events_pass wayland_scanner (include_dir w)
              (fresh (dom (tmp_dirs w))) before Hbefore) as [Hruns Hprinted].
  eexists. rewrite check_spec. split; [|split].
  - case_decide; [done|].
    by rewrite protocols_outcome_app, Hbefore; simpl; rewrite Hout.
  - unfold check_events. case_decide; [done|].
    cbn [scanner_runs].
    rewrite protocols_events_app, Hbefore.
    cbn [protocols_events]. rewrite Hout, app_nil_r, scanner_runs_app, Hruns.
    f_equal. unfold protocol_events. by rewrite Hheader, Hscan.
  - unfold check_events. case_decide; [done|].
    cbn [printed].
    rewrite protocols_events_app, Hbefore.
    cbn [protocols_events]. rewrite Hout, app_nil_r, printed_app, Hprinted.
    unfold protocol_events. by rewrite Hheader, Hscan.
Qed.

Lemma check_propagates_scanner_failure_witness :
  exists evs : list event,
    check (fun p => if decide (p = Sample.B) then ScannerFailed 1
                    else Sample.scanner p)
        ([Sample.A] ++ Sample.B :: [Sample.C]) Sample.consistent
      = (Raise (CalledProcessError 1 "wayland-scanner"),
         traced Sample.consistent evs) /\
    scanner_runs evs = ([Sample.A] ++ [Sample.B])%list /\
    printed evs = [].
Proof.
  apply (check_propagates_scanner_failure
           (fun p => if decide (p = Sample.B) then ScannerFailed 1
                     else Sample.scanner p)
           [Sample.A] [Sample.C] Sample.B Sample.consistent 1).
  - vm_compute. reflexivity.
  - vm_compute. reflexivity.
  - vm_compute. reflexivity.
Defined.

(** ** What [generate] does to the include directory *)

(** Whatever the scanner does, [generate] leaves the temporary directories
    alone and the include directory as [generated_files] says. *)
Lemma generate_frame (wayland_scanner : Path -> scanned)
    (protocols : list Path) (w : World) :
  include_dir (snd (generate wayland_scanner protocols w))
    = generated_files wayland_scanner (include_dir w) protocols /\
  tmp_dirs (snd (generate wayland_scanner protocols w)) = tmp_dirs w.
Proof.
  revert w. induction protocols as [|p rest IH]; intros w; simpl; [done|].
  unfold bind, generate_protocol_header, emit, write_file, ret; simpl.
  destruct (wayland_scanner p) as [| rc | header]; simpl; try done.
  match goal with
  | |- context [generate wayland_scanner rest ?w'] => destruct (IH w') as [-> ->]
  end.
  done.
Qed.

(** X7.  [generate] has no rollback: when the scanner fails on a document,
    the error is raised at once, the headers of the documents before it
    have been written, and the scanner is not run on the documents after
    it. *)
Theorem generate_stops_at_first_failure
    (wayland_scanner : Path -> scanned) (before after : list Path)
    (protocol_xml : Path) (w : World) (returncode : Z) :
  scanner_succeeds wayland_scanner before ->
  wayland_scanner protocol_xml = ScannerFailed returncode ->
  generate wayland_scanner (before ++ protocol_xml :: after) w =
    (Raise (CalledProcessError returncode "wayland-scanner"),
     {| include_dir := generated_files wayland_scanner (include_dir w) before;
        tmp_dirs := tmp_dirs w;
        trace := (trace w ++
                  List.map (fun p => RunScanner p Include (header_filename p))
                    (before ++ [protocol_xml]))%list |}).
Proof.
  revert w. induction before as [|p before IH]; intros w Hok Hfail; simpl.
  - unfold bind, generate_protocol_header, emit; simpl. by rewrite Hfail.
  - destruct (Hok p) as [header Hp]; [set_solver|].
    unfold bind, generate_protocol_header, emit, write_file, ret; simpl.
    rewrite Hp; simpl.
    rewrite IH by (try done; intros q Hq; apply Hok; set_solver).
    simpl. by rewrite <- app_assoc.
Qed.

Lemma generate_stops_at_first_failure_witness :
  generate Sample.scanner
      ([Sample.A] ++ Path_of_string "protocol/unknown.xml" :: [Sample.B])
      (Sample.world []) =
    (Raise (CalledProcessError 1 "wayland-scanner"),
     {| include_dir := generated_files Sample.scanner
                         (include_dir (Sample.world [])) [Sample.A];
        tmp_dirs := tmp_dirs (Sample.world []);
        trace := (trace (Sample.world []) ++
                  List.map (fun p => RunScanner p Include (header_filename p))
                    ([Sample.A] ++ [Path_of_string "protocol/unknown.xml"]))%list |}).
Proof.
  apply (generate_stops_at_first_failure Sample.scanner
           [Sample.A] [Sample.B] (Path_of_string "protocol/unknown.xml")
           (Sample.world []) 1).
  - intros p Hp. apply list_elem_of_In in Hp. destruct Hp as [<-|[]].
    exists Sample.A_header. reflexivity.
  - reflexivity.
Defined.

Lemma generated_files_dom_mono (wayland_scanner : Path -> scanned)
    (files : gmap string (list string)) (protocols : list Path) :
  dom files ⊆ dom (generated_files wayland_scanner files protocols).
Proof.
  revert files. induction protocols as [|p rest IH]; intros files; simpl;
    [done|].
  destruct (wayland_scanner p) as [| rc | header]; try done.
  etrans; [|apply IH]. rewrite dom_insert_L. set_solver.
Qed.

(** X8.  [generate] never removes a file from the include directory, and
    a file that is the header of none of the documents keeps its content,
    whether the scanner succeeds or not. *)
Theorem generate_keeps_other_files
    (wayland_scanner : Path -> scanned) (protocols : list Path) (w : World) :
  dom (include_dir w)
    ⊆ dom (include_dir (snd (generate wayland_scanner protocols w))) /\
  (forall file, file ∉ expected_files protocols ->
     include_dir (snd (generate wayland_scanner protocols w)) !! file
       = include_dir w !! file).
Proof.
  destruct (generate_frame wayland_scanner protocols w) as [-> _].
  split; [apply generated_files_dom_mono|].
  intros file Hfile. by apply generated_files_other.
Qed.

Lemma generate_keeps_other_files_witness :
  include_dir (snd (generate Sample.scanner_eleven [Sample.A] Sample.leftover))
    !! "B-protocol.h"
    = include_dir Sample.leftover !! "B-protocol.h".
Proof.
  apply (proj2 (generate_keeps_other_files Sample.scanner_eleven
                  [Sample.A] Sample.leftover) "B-protocol.h").
  apply (bool_decide_unpack _). vm_compute. exact I.
Defined.

(** Once the scanner succeeds on the documents, what [generate] leaves
    under a header's name does not depend on what was there before. *)
Lemma generated_files_lookup_indep (wayland_scanner : Path -> scanned)
    (files files' : gmap string (list string)) (protocols : list Path)
    (file : string) :
  scanner_succeeds wayland_scanner protocols ->
  file ∈ expected_files protocols ->
  generated_files wayland_scanner files protocols !! file
    = generated_files wayland_scanner files' protocols !! file.
Proof.
  revert files files'.
  induction protocols as [|p rest IH]; intros files files' Hok Hfile.
  - unfold expected_files in Hfile; simpl in Hfile. set_solver.
  - simpl. destruct (Hok p) as [header ->]; [set_solver|].
    assert (scanner_succeeds wayland_scanner rest) as Hok'
      by (intros q Hq; apply Hok; set_solver).
    destruct (decide (file ∈ expected_files rest)) as [Hrest|Hrest].
    + by apply IH.
    + rewrite !generated_files_other by done.
      assert (file = header_filename p) as ->.
      { unfold expected_files in *; simpl in Hfile. set_solver. }
      by rewrite !lookup_insert_eq.
Qed.

(** X9.  When the scanner succeeds on every document, running [generate]
    a second time changes nothing in the include directory. *)
Theorem generate_idempotent
    (wayland_scanner : Path -> scanned) (protocols : list Path) (w : World) :
  scanner_succeeds wayland_scanner protocols ->
  include_dir (snd (generate wayland_scanner protocols
                      (snd (generate wayland_scanner protocols w))))
    = include_dir (snd (generate wayland_scanner protocols w)).
Proof.
  intros Hok.
  destruct (generate_frame wayland_scanner protocols
              (snd (generate wayland_scanner protocols w))) as [-> _].
  destruct (generate_frame wayland_scanner protocols w) as [-> _].
  apply map_eq. intros file.
  destruct (decide (file ∈ expected_files protocols)) as [Hin|Hout].
  - by apply generated_files_lookup_indep.
  - by rewrite generated_files_other.
Qed.

Lemma generate_idempotent_witness :
  include_dir (snd (generate Sample.scanner_by_path
                      [Sample.A_wayland; Sample.A_wlroots; Sample.B]
                      (snd (generate Sample.scanner_by_path
                              [Sample.A_wayland; Sample.A_wlroots; Sample.B]
                              Sample.stale_line))))
    = include_dir (snd (generate Sample.scanner_by_path
                          [Sample.A_wayland; Sample.A_wlroots; Sample.B]
                          Sample.stale_line)).
Proof.
  apply (generate_idempotent Sample.scanner_by_path
           [Sample.A_wayland; Sample.A_wlroots; Sample.B] Sample.stale_line).
  intros p _. exists (parts p). reflexivity.
Defined.

(** X10.  On an include directory that [check] accepts, [generate]
    succeeds, every file reads afterwards, line for line, as it read
    before, and [check] accepts the directory still.  (The files are
    written anew all the same, and what was read as the same lines may
    have been stored with other line ends.) *)
Theorem generate_after_check_keeps_lines
    (wayland_scanner : Path -> scanned) (protocols : list Path) (w : World) :
  fst (check wayland_scanner protocols w) = Ok tt ->
  fst (generate wayland_scanner protocols w) = Ok tt /\
  (forall file,
     lookup_file Include file (snd (generate wayland_scanner protocols w))
       = lookup_file Include file w) /\
  scanner_runs (trace (snd (generate wayland_scanner protocols w)))
    = (scanner_runs (trace w) ++ protocols)%list /\
  fst (check wayland_scanner protocols
         (snd (generate wayland_scanner protocols w))) = Ok tt.
Proof.
  intros Hcheck. pose proof Hcheck as Hagain.
  apply check_Ok_iff in Hcheck as [_ Hall].
  assert (scanner_succeeds wayland_scanner protocols) as Hok.
  { intros p Hp. destruct (Hall p Hp) as (header & _ & Hscan).
    by exists header. }
  assert (generated_files wayland_scanner (include_dir w) protocols
          = include_dir w) as Hsame.
  { clear Hok Hagain. induction protocols as [|p rest IH]; simpl; [done|].
    destruct (Hall p) as (header & Hlookup & ->); [set_solver|].
    rewrite insert_id by done.
    apply IH. intros q Hq. apply Hall. set_solver. }
  rewrite check_spec in Hagain. simpl in Hagain.
  rewrite check_spec, generate_spec by done. simpl. rewrite Hsame.
  split; [done|]. split; [done|]. split; [|done].
  rewrite scanner_runs_app. f_equal.
  clear. induction protocols as [|p rest IH]; simpl; [done|]. by rewrite IH.
Qed.

Lemma generate_after_check_keeps_lines_witness :
  fst (generate Sample.scanner [Sample.A; Sample.B; Sample.C]
         Sample.consistent) = Ok tt /\
  (forall file,
     lookup_file Include file
         (snd (generate Sample.scanner [Sample.A; Sample.B; Sample.C]
                 Sample.consistent))
       = lookup_file Include file Sample.consistent) /\
  scanner_runs (trace (snd (generate Sample.scanner
                              [Sample.A; Sample.B; Sample.C]
                              Sample.consistent)))
    = (scanner_runs (trace Sample.consistent)
       ++ [Sample.A; Sample.B; Sample.C])%list /\
  fst (check Sample.scanner [Sample.A; Sample.B; Sample.C]
         (snd (generate Sample.scanner [Sample.A; Sample.B; Sample.C]
                 Sample.consistent))) = Ok tt.
Proof.
  apply (generate_after_check_keeps_lines Sample.scanner
           [Sample.A; Sample.B; Sample.C] Sample.consistent).
  vm_compute. reflexivity.
Defined.

(** ** The order in which [parse_args] finds fault *)

Lemma first_missing_app (path_exists : Path -> bool) (before after : list Path)
    (p : Path) :
  Forall (fun q => path_exists q = true) before ->
  path_exists p = false ->
  first_missing path_exists (before ++ p :: after) = Some p.
Proof.
  induction 1 as [|q before Hq _ IH]; intros Hp; simpl.
  - by rewrite Hp.
  - rewrite Hq; simpl. by apply IH.
Qed.

(** X11.  When both directories exist, the error names the first document
    of the declared order that is not on disk, whatever becomes of the
    documents after it. *)
Theorem parse_args_reports_first_missing
    (pkgconf : completed) (path_exists : Path -> bool) (argv : CommandLine)
    (default : option Path) (wayland_dir : Path) (wlroots : string)
    (before after : list Path) (protocol : Path) :
  get_wayland_protocols_dir pkgconf = Ok default ->
  wayland_dir_of pkgconf argv = Some wayland_dir ->
  opt_wlroots_dir argv = Some wlroots ->
  path_exists wayland_dir = true ->
  path_exists (Path_of_string wlroots) = true ->
  resolved wayland_dir (Path_of_string wlroots)
    = (before ++ protocol :: after)%list ->
  Forall (fun q => path_exists q = true) before ->
  path_exists protocol = false ->
  parse_args pkgconf path_exists argv
    = Raise (ValueError (ProtocolDoesNotExist protocol)).
Proof.
  intros Hdefault Hwayland Hwlroots Hwd Hwl Hresolved Hbefore Hmissing.
  unfold wayland_dir_of in Hwayland. rewrite Hdefault in Hwayland.
  unfold parse_args. rewrite Hdefault, Hwlroots, Hwayland, Hwd, Hwl.
  cbn [negb]. unfold resolved in Hresolved. rewrite Hresolved.
  by rewrite first_missing_app.
Qed.

Lemma parse_args_reports_first_missing_witness :
  parse_args Sample.pkgconf
      (fun p => bool_decide (p ∈ take 4 Sample.on_disk)) Sample.argv
    = Raise (ValueError (ProtocolDoesNotExist
               (joinpath (Path_of_string "/usr/share/wayland-protocols")
                  "unstable/pointer-constraints/pointer-constraints-unstable-v1.xml"))).
Proof.
  apply (parse_args_reports_first_missing Sample.pkgconf
           (fun p => bool_decide (p ∈ take 4 Sample.on_disk)) Sample.argv
           (Some (Path_of_string "/usr/share/wayland-protocols"))
           (Path_of_string "/usr/share/wayland-protocols") "/src/wlroots"
           (List.map (joinpath (Path_of_string "/usr/share/wayland-protocols"))
              (take 2 WAYLAND_PROCOTOLS))
           (List.map (joinpath (Path_of_string "/src/wlroots"))
              WLROOTS_PROTOCOLS)).
  - vm_compute. reflexivity.
  - vm_compute. reflexivity.
  - reflexivity.
  - vm_compute. reflexivity.
  - vm_compute. reflexivity.
  - vm_compute. reflexivity.
  - repeat constructor.
  - vm_compute. reflexivity.
Defined.

(** X12.  Once the default has been computed, a missing [--wlroots-dir]
    ends the run with the usage error; otherwise the shared directory is
    examined before the project's, and the project's before any document:
    the error is about the first of them that is at fault. *)
Theorem parse_args_examines_directories_in_order
    (pkgconf : completed) (path_exists : Path -> bool) (argv : CommandLine)
    (default : option Path) :
  get_wayland_protocols_dir pkgconf = Ok default ->
  (opt_wlroots_dir argv = None ->
   parse_args pkgconf path_exists argv = Raise (SystemExit 2)) /\
  (forall wlroots,
     opt_wlroots_dir argv = Some wlroots ->
     wayland_dir_of pkgconf argv = None ->
     parse_args pkgconf path_exists argv
       = Raise (ValueError (WaylandDirDoesNotExist None))) /\
  (forall wlroots wayland_dir,
     opt_wlroots_dir argv = Some wlroots ->
     wayland_dir_of pkgconf argv = Some wayland_dir ->
     path_exists wayland_dir = false ->
     parse_args pkgconf path_exists argv
       = Raise (ValueError (WaylandDirDoesNotExist (Some wayland_dir)))) /\
  (forall wlroots wayland_dir,
     opt_wlroots_dir argv = Some wlroots ->
     wayland_dir_of pkgconf argv = Some wayland_dir ->
     path_exists wayland_dir = true ->
     path_exists (Path_of_string wlroots) = false ->
     parse_args pkgconf path_exists argv
       = Raise (ValueError (WlrootsDirDoesNotExist (Path_of_string wlroots)))).
Proof.
  intros Hdefault. unfold wayland_dir_of, parse_args. rewrite Hdefault.
  split; [|split; [|split]].
  - by intros ->.
  - by intros wlroots -> ->.
  - intros wlroots wayland_dir -> -> Hwd. by rewrite Hwd.
  - intros wlroots wayland_dir -> -> Hwd Hwl. by rewrite Hwd, Hwl.
Qed.

Lemma parse_args_examines_directories_in_order_witness :
  parse_args Sample.pkgconf (fun _ => false) Sample.argv
    = Raise (ValueError (WaylandDirDoesNotExist
               (Some (Path_of_string "/usr/share/wayland-protocols")))).
Proof.
  apply (proj1 (proj2 (proj2 (parse_args_examines_directories_in_order
                  Sample.pkgconf (fun _ => false) Sample.argv
                  (Some (Path_of_string "/usr/share/wayland-protocols"))
                  eq_refl)))
           "/src/wlroots" (Path_of_string "/usr/share/wayland-protocols")).
  - reflexivity.
  - vm_compute. reflexivity.
  - reflexivity.
Defined.

(** X13.  With [--wayland-dir] given, the status [pkgconf] exited with
    and what it printed make no difference to the result, among the runs
    that exit with a status other than zero or print UTF-8.  A run that
    exits with status zero and prints bytes that are not UTF-8 ends
    [parse_args] with the decoding error, whatever the arguments. *)
Theorem parse_args_explicit_wayland_dir
    (path_exists : Path -> bool) (argv : CommandLine) (wayland : string)
    (returncode returncode' : Z) (output output' : bytes) :
  opt_wayland_dir argv = Some wayland ->
  (returncode = 0%Z -> output <> NotUtf8) ->
  (returncode' = 0%Z -> output' <> NotUtf8) ->
  parse_args (Exited returncode output) path_exists argv
    = parse_args (Exited returncode' output') path_exists argv /\
  parse_args (Exited 0 NotUtf8) path_exists argv = Raise UnicodeDecodeError.
Proof.
  intros Hwayland Hout Hout'.
  assert (forall rc out, (rc = 0%Z -> out <> NotUtf8) ->
            exists default,
              get_wayland_protocols_dir (Exited rc out) = Ok default) as Hok.
  { intros rc out Hutf8. unfold get_wayland_protocols_dir, check_output.
    destruct (Z.eqb_spec rc 0) as [Hzero|_]; [|by eexists].
    destruct out as [text|]; [|by destruct (Hutf8 Hzero)]. simpl.
    destruct (negb _); by eexists. }
  split; [|done].
  unfold parse_args.
  destruct (Hok returncode output Hout) as [default ->].
  destruct (Hok returncode' output' Hout') as [default' ->].
  by rewrite Hwayland.
Qed.

Lemma parse_args_explicit_wayland_dir_witness :
  parse_args (Exited 0 (Utf8 "/opt/share/wayland-protocols"))
      Sample.path_exists
      {| opt_wayland_dir := Some "/usr/share/wayland-protocols";
         opt_wlroots_dir := Some "/src/wlroots";
         opt_generate := true |}
    = parse_args (Exited 127 NotUtf8) Sample.path_exists
        {| opt_wayland_dir := Some "/usr/share/wayland-protocols";
           opt_wlroots_dir := Some "/src/wlroots";
           opt_generate := true |} /\
  parse_args (Exited 0 NotUtf8) Sample.path_exists
      {| opt_wayland_dir := Some "/usr/share/wayland-protocols";
         opt_wlroots_dir := Some "/src/wlroots";
         opt_generate := true |}
    = Raise UnicodeDecodeError.
Proof.
  apply (parse_args_explicit_wayland_dir Sample.path_exists
           {| opt_wayland_dir := Some "/usr/share/wayland-protocols";
              opt_wlroots_dir := Some "/src/wlroots";
              opt_generate := true |}
           "/usr/share/wayland-protocols" 0 127
           (Utf8 "/opt/share/wayland-protocols") NotUtf8).
  - reflexivity.
  - discriminate.
  - discriminate.
Defined.

(** ** The text printed by [pkgconf] *)

Lemma rstrip_snoc (p : ascii -> bool) (s : string) (c : ascii) :
  p c = true ->
  Str.rstrip p (s +:+ String c "") = Str.rstrip p s.
Proof.
  intros Hc. induction s as [|a s IH].
  - simpl. by rewrite Hc.
  - change (String a s +:+ String c "") with (String a (s +:+ String c "")).
    simpl. by rewrite IH.
Qed.

Lemma strip_snoc (p : ascii -> bool) (s : string) (c : ascii) :
  p c = true ->
  Str.strip p (s +:+ String c "") = Str.strip p s.
Proof.
  intros Hc. unfold Str.strip. induction s as [|a s IH].
  - simpl. by rewrite Hc.
  - change (String a s +:+ String c "") with (String a (s +:+ String c "")).
    simpl. destruct (p a); [done|].
    change (String a (s +:+ String c "")) with (String a s +:+ String c "").
    by apply rstrip_snoc.
Qed.

(** X14.  A white-space character, in the sense of [str.strip()], before
    or after the text that [pkgconf] prints, such as the newline that ends
    its output, makes no difference to the default. *)
Theorem get_wayland_protocols_dir_ignores_white_space
    (output : string) (c : ascii) :
  Str.is_space c = true ->
  get_wayland_protocols_dir (Exited 0 (Utf8 (output +:+ String c "")))
    = get_wayland_protocols_dir (Exited 0 (Utf8 output)) /\
  get_wayland_protocols_dir (Exited 0 (Utf8 (String c output)))
    = get_wayland_protocols_dir (Exited 0 (Utf8 output)).
Proof.
  intros Hc. unfold get_wayland_protocols_dir, Str.strip_space; simpl.
  rewrite strip_snoc by done. split; [done|].
  unfold Str.strip at 1 2. simpl. by rewrite Hc.
Qed.

Lemma get_wayland_protocols_dir_ignores_white_space_witness :
  get_wayland_protocols_dir
      (Exited 0 (Utf8 ("/usr/share/wayland-protocols"
                       +:+ String (ascii_of_nat 160) "")))
    = get_wayland_protocols_dir
        (Exited 0 (Utf8 "/usr/share/wayland-protocols")) /\
  get_wayland_protocols_dir
      (Exited 0 (Utf8 (String (ascii_of_nat 160)
                         "/usr/share/wayland-protocols")))
    = get_wayland_protocols_dir
        (Exited 0 (Utf8 "/usr/share/wayland-protocols")).
Proof.
  apply (get_wayland_protocols_dir_ignores_white_space
           "/usr/share/wayland-protocols" (ascii_of_nat 160)).
  reflexivity.
Defined.

(** The white-space characters are these and no other. *)
Lemma is_space_characters (c : ascii) :
  Str.is_space c
    = bool_decide (nat_of_ascii c
                     ∈ [9; 10; 11; 12; 13; 28; 29; 30; 31; 32; 133; 160]).
Proof. destruct c as [[] [] [] [] [] [] [] []]; vm_compute; reflexivity. Qed.

(** ** The script as a whole *)

(** X15.  Run without [--generate], the script leaves the include
    directory and the temporary directories as they were, whether it
    succeeds or fails and wherever it fails. *)
Theorem main_check_mode_reads_only
    (wayland_scanner : Path -> scanned) (pkgconf : completed)
    (path_exists : Path -> bool) (argv : CommandLine) (w : World) :
  opt_generate argv = false ->
  include_dir (snd (main wayland_scanner pkgconf path_exists argv w))
    = include_dir w /\
  tmp_dirs (snd (main wayland_scanner pkgconf path_exists argv w))
    = tmp_dirs w.
Proof.
  intros Hflag. unfold main.
  destruct (parse_args pkgconf path_exists argv) as [[protocols g]|e]
    eqn:Hparse; [|done].
  apply parse_args_Ok in Hparse as (? & ? & ? & _ & _ & _ & _ & _ & _ & _ & ->).
  rewrite Hflag. by rewrite check_spec.
Qed.

Lemma main_check_mode_reads_only_witness :
  include_dir (snd (main Sample.scanner_eleven Sample.pkgconf
                      Sample.path_exists Sample.argv Sample.stale_line))
    = include_dir Sample.stale_line /\
  tmp_dirs (snd (main Sample.scanner_eleven Sample.pkgconf
                   Sample.path_exists Sample.argv Sample.stale_line))
    = tmp_dirs Sample.stale_line.
Proof.
  apply (main_check_mode_reads_only Sample.scanner_eleven Sample.pkgconf
           Sample.path_exists Sample.argv Sample.stale_line).
  reflexivity.
Defined.

Lemma NoDup_map_injective {A B : Type} (f : A -> B) (l : list A) (x y : A) :
  NoDup (List.map f l) -> x ∈ l -> y ∈ l -> f x = f y -> x = y.
Proof.
  induction l as [|a l IH]; simpl; intros Hnodup Hx Hy Hxy;
    [by apply elem_of_nil in Hx|].
  apply NoDup_cons in Hnodup as [Ha Hnodup].
  apply elem_of_cons in Hx as [->|Hx]; apply elem_of_cons in Hy as [->|Hy];
    try done.
  - exfalso. apply Ha. rewrite Hxy. apply list_elem_of_fmap. by exists y.
  - exfalso. apply Ha. rewrite <- Hxy. apply list_elem_of_fmap. by exists x.
  - by apply IH.
Qed.

(** X16.  With directories and documents in place, a scanner that
    succeeds on the documents, and an include directory that holds
    nothing but headers of the configuration, the script run with
    [--generate] succeeds, and run again without it on what that run
    left, it succeeds too. *)
Theorem main_generate_then_check
    (wayland_scanner : Path -> scanned) (pkgconf : completed)
    (path_exists : Path -> bool) (wayland : option string)
    (wlroots : option string) (protocols : list Path) (w : World) :
  parse_args pkgconf path_exists
      {| opt_wayland_dir := wayland; opt_wlroots_dir := wlroots;
         opt_generate := true |}
    = Ok (protocols, true) ->
  scanner_succeeds wayland_scanner protocols ->
  dom (include_dir w) ⊆ expected_files protocols ->
  fst (main wayland_scanner pkgconf path_exists
         {| opt_wayland_dir := wayland; opt_wlroots_dir := wlroots;
            opt_generate := true |} w) = Ok tt /\
  fst (main wayland_scanner pkgconf path_exists
         {| opt_wayland_dir := wayland; opt_wlroots_dir := wlroots;
            opt_generate := false |}
         (snd (main wayland_scanner pkgconf path_exists
                 {| opt_wayland_dir := wayland; opt_wlroots_dir := wlroots;
                    opt_generate := true |} w))) = Ok tt.
Proof.
  intros Hparse Hok Hdom.
  assert (parse_args pkgconf path_exists
            {| opt_wayland_dir := wayland; opt_wlroots_dir := wlroots;
               opt_generate := false |} = Ok (protocols, false)) as Hparse'.
  { apply parse_args_Ok in Hparse
      as (default & wd & wl & ? & ? & ? & ? & ? & ? & ? & _).
    apply parse_args_Ok. by exists default, wd, wl. }
  assert (forall p q, p ∈ protocols -> q ∈ protocols ->
            header_filename p = header_filename q ->
            wayland_scanner p = wayland_scanner q) as Hsame.
  { apply parse_args_Ok in Hparse
      as (default & wd & wl & _ & _ & _ & _ & _ & _ & -> & _).
    intros p q Hp Hq Hname. f_equal.
    eapply NoDup_map_injective;
      [apply (resolved_header_filenames_NoDup wd (Path_of_string wl))
      |done..]. }
  unfold main. rewrite Hparse, Hparse'.
  rewrite generate_spec by done. split; [done|].
  rewrite check_spec; simpl.
  rewrite generated_files_dom by done.
  case_decide as Hne; [exfalso; apply Hne; set_solver|].
  apply protocols_outcome_Ok, Forall_forall. intros p Hp.
  apply protocol_outcome_Ok.
  destruct (generated_files_lookup wayland_scanner (include_dir w)
              protocols p Hok Hsame Hp) as (header & Hscan & Hlookup).
  by exists header.
Qed.

Lemma main_generate_then_check_witness :
  fst (main Sample.scanner_by_path Sample.pkgconf Sample.path_exists
         {| opt_wayland_dir := None; opt_wlroots_dir := Some "/src/wlroots";
            opt_generate := true |} (Sample.world [])) = Ok tt /\
  fst (main Sample.scanner_by_path Sample.pkgconf Sample.path_exists
         {| opt_wayland_dir := None; opt_wlroots_dir := Some "/src/wlroots";
            opt_generate := false |}
         (snd (main Sample.scanner_by_path Sample.pkgconf Sample.path_exists
                 {| opt_wayland_dir := None;
                    opt_wlroots_dir := Some "/src/wlroots";
                    opt_generate := true |} (Sample.world [])))) = Ok tt.
Proof.
  apply (main_generate_then_check Sample.scanner_by_path Sample.pkgconf
           Sample.path_exists None (Some "/src/wlroots")
           (resolved (Path_of_string "/usr/share/wayland-protocols")
              (Path_of_string "/src/wlroots"))
           (Sample.world [])).
  - vm_compute. reflexivity.
  - intros p _. exists (parts p). reflexivity.
  - apply (bool_decide_unpack _). vm_compute. exact I.
Defined.

(** ** The life of a seat *)

(** On a seat that has been destroyed no statement reaches the library. *)
Lemma seat_run_destroyed (body : list Seat.stmt) (self : Seat.t)
    (n : Seat.Native) :
  Seat._ptr self = None ->
  exists raised, Seat.run body self n = (raised, self, n).
Proof.
  intros Hnone. induction body as [|[| c | what] rest IH]; simpl.
  - by eexists.
  - unfold Seat.destroy. by rewrite Hnone.
  - unfold Seat.set_capabilities. rewrite Hnone. by eexists.
  - by eexists.
Qed.

Lemma seat_run_live (body : list Seat.stmt) (self : Seat.t) (n : Seat.Native)
    (ptr : nat) :
  Seat._ptr self = Some ptr ->
  exists raised self' n' capabilities,
    Seat.run body self n = (raised, self', n') /\
    Seat.calls n' =
      (Seat.calls n
       ++ List.map (Seat.wlr_seat_set_capabilities ptr) capabilities
       ++ match Seat._ptr self' with
          | Some _ => []
          | None => [Seat.wlr_seat_destroy ptr]
          end)%list /\
    Seat.live n' =
      match Seat._ptr self' with
      | Some _ => Seat.live n
      | None => Seat.live n ∖ {[ptr]}
      end /\
    (Seat._ptr self' = Some ptr \/ Seat._ptr self' = None).
Proof.
  revert self n. induction body as [|[| c | what] rest IH]; intros self n Hlive.
  - exists None, self, n, []. simpl. rewrite Hlive, app_nil_r. eauto.
  - simpl. unfold Seat.destroy at 1. rewrite Hlive.
    match goal with
    | |- context [Seat.run rest ?s ?m] =>
        destruct (seat_run_destroyed rest s m eq_refl) as [raised ->]
    end.
    eexists raised, _, _, []. simpl. eauto.
  - simpl. unfold Seat.set_capabilities at 1. rewrite Hlive.
    match goal with
    | |- context [Seat.run rest self ?m] =>
        destruct (IH self m Hlive)
          as (raised & self' & n' & capabilities & -> & Hcalls & Hset & Hptr)
    end.
    exists raised, self', n', (c :: capabilities). simpl in *.
    rewrite Hcalls, <- app_assoc. eauto.
  - exists (Some (Seat.UserError what)), self, n, []. simpl.
    rewrite Hlive, app_nil_r. eauto.
Qed.

(** X17.  Whatever is done with a seat after it is made, the calls that
    reach the library are its creation, then updates of its capabilities,
    then at most one destruction, made when the object gave up its
    pointer: the seat is not destroyed twice, and no update follows its
    destruction. *)
Theorem seat_calls_in_order (display : nat) (name : string)
    (body : list Seat.stmt) (n : Seat.Native) :
  exists raised self n' capabilities,
    Seat.run body (fst (Seat.__init__ display name n))
        (snd (Seat.__init__ display name n)) = (raised, self, n') /\
    Seat.calls n' =
      (Seat.calls n
       ++ Seat.wlr_seat_create display name (fresh (Seat.live n))
       :: List.map (Seat.wlr_seat_set_capabilities (fresh (Seat.live n)))
            capabilities
       ++ match Seat._ptr self with
          | Some _ => []
          | None => [Seat.wlr_seat_destroy (fresh (Seat.live n))]
          end)%list /\
    Seat.live n' =
      match Seat._ptr self with
      | Some _ => {[fresh (Seat.live n)]} ∪ Seat.live n
      | None => Seat.live n
      end.
Proof.
  destruct (seat_run_live body (fst (Seat.__init__ display name n))
              (snd (Seat.__init__ display name n)) (fresh (Seat.live n))
              eq_refl)
    as (raised & self & n' & capabilities & Hrun & Hcalls & Hset & Hptr).
  exists raised, self, n', capabilities. split; [done|]. simpl in *.
  split; [by rewrite Hcalls, <- app_assoc|].
  rewrite Hset. destruct (Seat._ptr self); [done|].
  pose proof (is_fresh (Seat.live n)). set_solver.
Qed.

(** X18.  A [with] block over a new seat destroys it exactly once before
    it is left, whether its body returns, raises, or destroys the seat
    itself: the library is left with the seats it had, the object without
    a pointer. *)
Theorem with_Seat_destroys_once (display : nat) (name : string)
    (body : list Seat.stmt) (n : Seat.Native) :
  exists raised self capabilities,
    Seat.with_Seat display name body n =
      (raised, self,
       {| Seat.live := Seat.live n;
          Seat.calls :=
            (Seat.calls n
             ++ Seat.wlr_seat_create display name (fresh (Seat.live n))
             :: List.map (Seat.wlr_seat_set_capabilities (fresh (Seat.live n)))
                  capabilities
             ++ [Seat.wlr_seat_destroy (fresh (Seat.live n))])%list |}) /\
    Seat._ptr self = None.
Proof.
  unfold Seat.with_Seat, Seat.__enter__, Seat.__exit__.
  destruct (seat_run_live body (fst (Seat.__init__ display name n))
              (snd (Seat.__init__ display name n)) (fresh (Seat.live n))
              eq_refl)
    as (raised & self & [live' calls'] & capabilities & Hrun & Hcalls & Hset
        & Hptr).
  simpl in *. rewrite Hrun.
  pose proof (is_fresh (Seat.live n)) as Hfresh.
  unfold Seat.destroy. destruct Hptr as [Hptr|Hptr]; rewrite Hptr in *.
  - exists raised,
      {| Seat._ptr := None;
         Seat.request_set_cursor_event := Seat.request_set_cursor_event self |},
      capabilities.
    split; [|done]. simpl.
    rewrite Hcalls, Hset, app_nil_r, <- !app_assoc. simpl.
    do 2 f_equal. set_solver.
  - exists raised, self, capabilities. split; [|done].
    rewrite Hcalls, Hset, <- !app_assoc. simpl.
    do 2 f_equal. set_solver.
Qed.

(** ** Edge cases *)

(** X19.  With no document configured, [check] succeeds exactly when the
    include directory is empty; otherwise it reports every file there as
    extra, and in neither case is the scanner run. *)
Theorem check_without_documents
    (wayland_scanner : Path -> scanned) (w : World) :
  (fst (check wayland_scanner [] w) = Ok tt <-> include_dir w = ∅) /\
  (include_dir w <> ∅ ->
   fst (check wayland_scanner [] w)
     = Raise (ValueError (UnexpectedProtocolFiles []
                (elements (dom (include_dir w)))))) /\
  exists evs,
    snd (check wayland_scanner [] w) = traced w evs /\ scanner_runs evs = [].
Proof.
  rewrite check_spec; simpl.
  assert (expected_files [] = ∅) as Hexp by done.
  split; [|split].
  - case_decide as Hne.
    + split; [done|]. intros Hempty. exfalso. apply Hne.
      by rewrite Hexp, Hempty, dom_empty_L.
    + split; [|done]. intros _. apply dom_empty_iff_L.
      by destruct (decide (expected_files [] = dom (include_dir w))).
  - intros Hfiles. case_decide as Hne.
    + rewrite Hexp.
      replace (∅ ∖ dom (include_dir w)) with (∅ : gset string) by set_solver.
      replace (dom (include_dir w) ∖ ∅) with (dom (include_dir w))
        by set_solver.
      by rewrite elements_empty.
    + exfalso. apply Hfiles, dom_empty_iff_L.
      by destruct (decide (expected_files [] = dom (include_dir w))).
  - eexists. split; [done|]. unfold check_events. by case_decide.
Qed.

Lemma check_without_documents_witness :
  fst (check Sample.scanner [] Sample.headers_A_B)
    = Raise (ValueError (UnexpectedProtocolFiles []
               (elements (dom (include_dir Sample.headers_A_B))))).
Proof.
  apply (proj1 (proj2 (check_without_documents Sample.scanner
                         Sample.headers_A_B))).
  intros Hempty.
  assert (include_dir Sample.headers_A_B !! "A-protocol.h" = None) as Hnone
    by (by rewrite Hempty).
  vm_compute in Hnone. discriminate.
Defined.
